(** * Document bucket: the data model and the bucket operations

    A shallow embedding of [document_bucket/model.py] and
    [document_bucket/api.py] (exercise [encryption-context]).

    Conventions of the embedding.
    - A Python [str] is a [string]; [str.upper] acts on the letters a-z
      and leaves every other character as it is.
    - A [Dict[str, str]] is a [gmap string string]: the code never depends
      on the insertion order of a dictionary.
    - An exception is a value of [exn]; a call that may raise returns a
      [result].
    - The values of [config] are not part of the sources: they are the
      fields of a [Config] record the definitions are parametrised by.
    - [uuid.uuid4()] is the only source of randomness: the functions that
      reach it take the drawn UUID as an argument. *)

From Stdlib Require Import ZArith NArith Ascii String List Lia.
From Stdlib.Strings Require Import Byte.
From stdpp Require Import base option gmap strings list fin_maps fin_sets.

Local Open Scope string_scope.
Local Open Scope list_scope.

(** ** Exceptions and results *)

(** The messages of [DataModelException] raised in [model.py]. *)
Inductive data_model_error :=
  | PartitionKeyNotSet      (* "partition_key not set correctly after init!" *)
  | SortKeyNotSet           (* "sort_key not set correctly after init!" *)
  | CannotUseAsS3Key        (* "Cannot use a {} as an S3 Key!" *)
  | ReservedKeyCollision    (* "Can't use DB key names ({}, {}) as Encryption Context keys!" *)
  | InvalidSortKey          (* "Sort key should be {}, was {}" *)
  | EmptyRecord.            (* "Got empty pointer item!" *)

Inductive exn :=
  | DataModelException (e : data_model_error)
  | ValueError          (* uuid.UUID on a malformed string *)
  | KeyError            (* del d[k] with k absent *)
  | TypeError           (* hashing an unhashable object *)
  | AssertionError      (* the context assertions of retrieve *)
  | AttributeError      (* a method of str called on another object *)
  | ObjectNotFound      (* the blob store has no object under the key *)
  | ClientError         (* the record store refused a request *)
  | ProviderError       (* the encryption provider failed *)
  | InvalidReference.   (* no exception of Python: a reference to no object,
                           which cannot arise *)

Inductive result (A : Type) :=
  | Ok (a : A)
  | Raise (e : exn).
Arguments Ok {A} a.
Arguments Raise {A} e.

#[global] Instance result_bind : MBind result := λ A B k r,
  match r with
  | Ok a => k a
  | Raise e => Raise e
  end.

#[global] Instance data_model_error_eq_dec : EqDecision data_model_error.
Proof. solve_decision. Defined.
#[global] Instance exn_eq_dec : EqDecision exn.
Proof. solve_decision. Defined.

(** ** Strings *)

Definition is_lower (c : ascii) : bool :=
  (97 <=? nat_of_ascii c)%nat && (nat_of_ascii c <=? 122)%nat.

Definition upper_char (c : ascii) : ascii :=
  if is_lower c then ascii_of_nat (nat_of_ascii c - 32) else c.

(** [s.upper()] *)
Fixpoint upper (s : string) : string :=
  match s with
  | EmptyString => EmptyString
  | String c s' => String (upper_char c) (upper s')
  end.

(** [s.startswith(p)] *)
Definition startswith (s p : string) : bool := String.prefix p s.

(** ** Configuration

    [config["document_bucket"]["document_table"][...]] *)
Record Config := {
  cfg_partition_key : string;
  cfg_sort_key : string;
  cfg_ctx_prefix : string;
  cfg_object_target : string;
}.

(** The record store addresses a row by two attributes: their names differ. *)
Definition config_wf (config : Config) : Prop :=
  cfg_partition_key config ≠ cfg_sort_key config.

Definition sample_config : Config := {|
  cfg_partition_key := "reference";
  cfg_sort_key := "target";
  cfg_ctx_prefix := "S3ec-";
  cfg_object_target := "S3DOC";
|}.

Section Canonicalize.
Variable config : Config.

(** [BaseItem.partition_key_name] *)
Definition partition_key_name : string := cfg_partition_key config.

(** [BaseItem.sort_key_name] *)
Definition sort_key_name : string := cfg_sort_key config.

(** [ContextItem._prefix] *)
Definition _prefix : string := upper (cfg_ctx_prefix config).

(** [ContextItem.is_context_key_fmt] *)
Definition is_context_key_fmt (key : string) : bool :=
  startswith key _prefix.

(** [ContextItem.canonicalize] *)
Definition canonicalize (context_key : string) : string :=
  let context_key := upper context_key in
  if negb (is_context_key_fmt context_key)
  then _prefix +:+ context_key
  else context_key.

(** [PointerItem.sort_key_config] *)
Definition sort_key_config : string := cfg_object_target config.
End Canonicalize.

(** ** The [uuid] module

    [uuid.UUID] keeps the identifier as a 128-bit integer.  The constructor
    [UUID(hex)] and [str(UUID)] follow the library:
<<
    hex = hex.replace('urn:', '').replace('uuid:', '')
    hex = hex.strip('{}').replace('-', '')
    if len(hex) != 32: raise ValueError(...)
    int = int_(hex, 16)
    if not 0 <= int < 1<<128: raise ValueError(...)
>>
    and
<<
    hex = '%032x' % self.int
    return '%s-%s-%s-%s-%s' % (hex[:8], hex[8:12], hex[12:16], hex[16:20], hex[20:])
>> *)

Definition UUID := Z.

Abbreviation chars := (list ascii).

Fixpoint starts_with (p s : chars) : bool :=
  match p, s with
  | [], _ => true
  | a :: p', b :: s' => bool_decide (a = b) && starts_with p' s'
  | _ :: _, [] => false
  end.

(** [s.replace(old, new)] for a non-empty [old]: the occurrences are found
    from the left and do not overlap; [skip] counts the characters of the
    occurrence just replaced that are still to be passed over. *)
Fixpoint replace_from (old new : chars) (skip : nat) (s : chars) : chars :=
  match s with
  | [] => []
  | c :: s' =>
      match skip with
      | S k => replace_from old new k s'
      | O =>
          if starts_with old s
          then new ++ replace_from old new (length old - 1) s'
          else c :: replace_from old new 0 s'
      end
  end.

Definition replace (old new s : chars) : chars := replace_from old new 0 s.

Fixpoint lstrip (cs s : chars) : chars :=
  match s with
  | [] => []
  | c :: s' => if bool_decide (c ∈ cs) then lstrip cs s' else s
  end.

Definition rstrip (cs s : chars) : chars := rev (lstrip cs (rev s)).

(** [s.strip(cs)] *)
Definition strip (cs s : chars) : chars := rstrip cs (lstrip cs s).

(** The white space [int()] skips around an ASCII literal. *)
Definition is_space (c : ascii) : bool :=
  bool_decide (nat_of_ascii c ∈ [9; 10; 11; 12; 13; 32]%nat).

(** The value of a digit in base 16. *)
Definition hex_val (c : ascii) : option Z :=
  let n := Z.of_nat (nat_of_ascii c) in
  if (48 <=? n)%Z && (n <=? 57)%Z then Some (n - 48)%Z
  else if (97 <=? n)%Z && (n <=? 102)%Z then Some (n - 87)%Z
  else if (65 <=? n)%Z && (n <=? 70)%Z then Some (n - 55)%Z
  else None.

(** The digits of a literal: single underscores may separate digits; the
    scan stops at the first character that is neither, and fails on a double
    or trailing underscore. *)
Fixpoint scan_digits (acc : Z) (prev_us : bool) (s : chars)
    : option (Z * chars) :=
  match s with
  | [] => if prev_us then None else Some (acc, [])
  | c :: s' =>
      if bool_decide (c = "_"%char)
      then (if prev_us then None else scan_digits acc true s')
      else match hex_val c with
           | Some d => scan_digits (16 * acc + d)%Z false s'
           | None => if prev_us then None else Some (acc, s)
           end
  end.

(** The value of a string of digits, most significant first. *)
Definition hex_value (acc : Z) (s : chars) : Z :=
  fold_left (λ a c, 16 * a + default 0 (hex_val c))%Z s acc.

Fixpoint skip_spaces (s : chars) : chars :=
  match s with
  | c :: s' => if is_space c then skip_spaces s' else s
  | [] => []
  end.

(** [int(s, 16)]: white space, a sign, a [0x] prefix (an underscore may
    follow it), the digits, white space. [None] stands for [ValueError]. *)
Definition int16 (s : chars) : option Z :=
  let s := skip_spaces s in
  let '(sign, s) :=
    match s with
    | "+"%char :: t => (1%Z, t)
    | "-"%char :: t => ((-1)%Z, t)
    | _ => (1%Z, s)
    end in
  let s :=
    match s with
    | "0"%char :: x :: t =>
        if bool_decide (x = "x"%char) || bool_decide (x = "X"%char)
        then match t with "_"%char :: t' => t' | _ => t end
        else s
    | _ => s
    end in
  match s with
  | "_"%char :: _ => None
  | _ =>
      match scan_digits 0 false s with
      | Some (z, rest) =>
          if bool_decide (length rest = length s) then None
          else match skip_spaces rest with
               | [] => Some (sign * z)%Z
               | _ :: _ => None
               end
      | None => None
      end
  end.

(** [uuid.UUID(hex)] *)
Definition UUID_of_chars (hex : chars) : result UUID :=
  let hex := replace (list_ascii_of_string "uuid:") []
               (replace (list_ascii_of_string "urn:") [] hex) in
  let hex := replace (list_ascii_of_string "-") []
               (strip (list_ascii_of_string "{}") hex) in
  if bool_decide (length hex ≠ 32%nat) then Raise ValueError
  else match int16 hex with
       | None => Raise ValueError
       | Some int =>
           if bool_decide (0 ≤ int < 2 ^ 128)%Z then Ok int
           else Raise ValueError
       end.

Definition UUID_of_str (hex : string) : result UUID :=
  UUID_of_chars (list_ascii_of_string hex).

Definition hex_digit (d : Z) : ascii :=
  match d with
  | 0 => "0" | 1 => "1" | 2 => "2" | 3 => "3" | 4 => "4" | 5 => "5"
  | 6 => "6" | 7 => "7" | 8 => "8" | 9 => "9" | 10 => "a" | 11 => "b"
  | 12 => "c" | 13 => "d" | 14 => "e" | _ => "f"
  end%Z%char.

(** ['%0wx' % n] for [0 <= n < 16^w] *)
Fixpoint to_hex (w : nat) (n : Z) : chars :=
  match w with
  | O => []
  | S w' => to_hex w' (n / 16)%Z ++ [hex_digit (n mod 16)%Z]
  end.

(** [l[a:b]] *)
Definition slice (a b : nat) (l : chars) : chars := take (b - a) (drop a l).

Definition chars_of_UUID (u : UUID) : chars :=
  let hex := to_hex 32 u in
  slice 0 8 hex ++ "-"%char :: slice 8 12 hex ++ "-"%char ::
  slice 12 16 hex ++ "-"%char :: slice 16 20 hex ++ "-"%char :: drop 20 hex.

(** [str(u)] for a UUID [u] *)
Definition str_of_UUID (u : UUID) : string :=
  string_of_list_ascii (chars_of_UUID u).

(** The canonical form of a UUID: 36 characters, hyphens at 8, 13, 18 and
    23, digits and the letters a-f elsewhere. *)
Definition is_lower_hex (c : ascii) : bool :=
  let n := nat_of_ascii c in
  ((48 <=? n) && (n <=? 57) || (97 <=? n) && (n <=? 102))%nat.

Arguments str_of_UUID : simpl never.
Arguments UUID_of_str : simpl never.

Definition is_canonical_uuid (s : string) : bool :=
  let l := list_ascii_of_string s in
  bool_decide (length l = 36%nat)
  && forallb (λ '(i, c),
                if bool_decide (i ∈ [8; 13; 18; 23]%nat)
                then bool_decide (c = "-"%char)
                else is_lower_hex c)
             (zip (seq 0 36) l).

(** ** State and exceptions

    A computation over a mutable store [S] that may raise: the store is
    returned in both cases, since what was written before an exception
    stays written. *)
Definition SE (S A : Type) : Type := S → result A * S.

#[global] Instance SE_ret {S} : MRet (SE S) := λ A a s, (Ok a, s).
#[global] Instance SE_bind {S} : MBind (SE S) := λ A B k m s,
  match m s with
  | (Ok a, s') => k a s'
  | (Raise e, s') => (Raise e, s')
  end.

Definition raise {S A} (e : exn) : SE S A := λ s, (Raise e, s).

(** A pure call that may raise, run inside a stateful computation. *)
Definition lift {S A} (r : result A) : SE S A := λ s, (r, s).

(** ** Dictionaries as objects

    A dictionary passed to a function is a reference into the store of
    objects; [del] updates the object in place and [copy.deepcopy] allocates
    a new one.  The values are strings, which are immutable. *)
Abbreviation dict := (gmap string string).
Definition loc := positive.
Abbreviation heap := (gmap loc dict).

(** [del d[k]] *)
Definition py_del (l : loc) (k : string) : SE heap unit := λ h,
  match h !! l with
  | None => (Raise InvalidReference, h)
  | Some d =>
      match d !! k with
      | None => (Raise KeyError, h)
      | Some _ => (Ok (), <[l := delete k d]> h)
      end
  end.

(** A new object holding [d]. *)
Definition alloc (d : dict) : SE heap loc := λ h,
  let l := fresh (dom h) in (Ok l, <[l := d]> h).

(** [copy.deepcopy(d)] *)
Definition deepcopy (l : loc) : SE heap loc := λ h,
  match h !! l with
  | None => (Raise InvalidReference, h)
  | Some d => alloc d h
  end.

(** ** [model.py] *)

(** What a key field may hold: [None], a [str] or a [UUID]. *)
Inductive key_value :=
  | KNone
  | KStr (s : string)
  | KUUID (u : UUID).

#[global] Instance key_value_eq_dec : EqDecision key_value.
Proof. solve_decision. Defined.

(** A [BaseItem] that is of no subclass. *)
Record BaseItem := {
  base_partition_key : key_value;
  base_sort_key : key_value;
}.

(** A [ContextItem], as [__post_init__] leaves it: both keys are strings. *)
Record ContextItem := {
  ctx_partition_key : string;
  ctx_sort_key : string;
}.

(** A [PointerItem], as [__post_init__] leaves it. *)
Record PointerItem := {
  partition_key : string;
  sort_key : string;
  context : dict;
}.

Record DocumentBundle := {
  key : PointerItem;
  data : list Byte.byte;
}.

#[global] Instance ContextItem_eq_dec : EqDecision ContextItem.
Proof. solve_decision. Defined.

#[global] Instance ContextItem_countable : Countable ContextItem.
Proof.
  apply (inj_countable' (λ c, (ctx_partition_key c, ctx_sort_key c))
           (λ p, {| ctx_partition_key := p.1; ctx_sort_key := p.2 |})).
  by intros [].
Defined.

(** An object of the hierarchy, with its class. *)
Inductive item :=
  | Base (b : BaseItem)
  | Context (c : ContextItem)
  | Pointer (p : PointerItem).

Inductive class := BaseItem_class | ContextItem_class | PointerItem_class.

#[global] Instance class_eq_dec : EqDecision class.
Proof. solve_decision. Defined.

(** [x.__class__] *)
Definition class_of (x : item) : class :=
  match x with
  | Base _ => BaseItem_class
  | Context _ => ContextItem_class
  | Pointer _ => PointerItem_class
  end.

(** [x.partition_key] *)
Definition item_partition_key (x : item) : key_value :=
  match x with
  | Base b => base_partition_key b
  | Context c => KStr (ctx_partition_key c)
  | Pointer p => KStr (partition_key p)
  end.

(** [x.sort_key] *)
Definition item_sort_key (x : item) : key_value :=
  match x with
  | Base b => base_sort_key b
  | Context c => KStr (ctx_sort_key c)
  | Pointer p => KStr (sort_key p)
  end.

(** A [ContextQuery], as [__post_init__] leaves it. *)
Record ContextQuery := {
  query_partition_key : string;
}.

(** The condition [Key(name).eq(value)] of [boto3.dynamodb.conditions]. *)
Record key_condition := KeyEq {
  condition_name : string;
  condition_value : string;
}.

(** How the record store reads the condition on a row: the attribute is
    there and has the value. *)
Definition condition_holds (c : key_condition) (row : dict) : bool :=
  bool_decide (row !! condition_name c = Some (condition_value c)).

#[global] Instance PointerItem_eq_dec : EqDecision PointerItem.
Proof. solve_decision. Defined.

#[global] Instance PointerItem_countable : Countable PointerItem.
Proof.
  apply (inj_countable'
           (λ p, (partition_key p, sort_key p, context p))
           (λ t, {| partition_key := t.1.1; sort_key := t.1.2;
                    context := t.2 |})).
  by intros [].
Defined.

Section Model.
Variable config : Config.

(** The built-in [hash] on a pair of key values. *)
Variable hash : key_value * key_value → Z.

(** [BaseItem.__hash__]; [ContextItem] and [PointerItem] call it through
    [super()]. *)
Definition __hash__ (self : item) : Z :=
  hash (item_partition_key self, item_sort_key self).

(** [BaseItem.__eq__]; [ContextItem] and [PointerItem] call it through
    [super()]. *)
Definition __eq__ (self other : item) : bool :=
  if bool_decide (class_of self = class_of other) then
    let same_keys :=
      bool_decide (item_partition_key other = item_partition_key self) in
    let same_keys :=
      same_keys && bool_decide (item_sort_key other = item_sort_key self) in
    same_keys
  else false.

(** [BaseItem._assert_set] *)
Definition _assert_set (partition_key sort_key : key_value) : result unit :=
  if bool_decide (partition_key = KNone)
  then Raise (DataModelException PartitionKeyNotSet)
  else if bool_decide (sort_key = KNone)
  then Raise (DataModelException SortKeyNotSet)
  else Ok ().

(** [ContextItem.__post_init__], on the arguments of the constructor *)
Definition ContextItem_init (partition_key sort_key : key_value)
    : result ContextItem :=
  _assert_set partition_key sort_key;;
  partition_key ←
    match partition_key with
    | KStr s => Ok (canonicalize config s)
    | _ => Raise AttributeError
    end;
  sort_key ←
    match sort_key with
    | KStr s => u ← UUID_of_str s; Ok (str_of_UUID u)
    | _ => Raise AttributeError
    end;
  Ok {| ctx_partition_key := partition_key; ctx_sort_key := sort_key |}.

(** [PointerItem._validate_reserved_ec_keys] *)
Definition _validate_reserved_ec_keys (context : dict) : result unit :=
  let pkn := partition_key_name config in
  let skn := sort_key_name config in
  if bool_decide (pkn ∈ dom context) || bool_decide (skn ∈ dom context)
  then Raise (DataModelException ReservedKeyCollision)
  else Ok ().

(** [PointerItem.__post_init__], on the arguments of the constructor *)
Definition PointerItem_init (partition_key sort_key : key_value)
    (context : dict) : result PointerItem :=
  _assert_set partition_key sort_key;;
  partition_key ←
    match partition_key with
    | KStr s => u ← UUID_of_str s; Ok (KStr (str_of_UUID u))
    | _ => Ok partition_key
    end;
  _validate_reserved_ec_keys context;;
  if bool_decide (sort_key ≠ KStr (sort_key_config config))
  then Raise (DataModelException InvalidSortKey)
  else
    Ok {| partition_key :=
            match partition_key with
            | KStr s => s
            | KUUID u => str_of_UUID u
            | KNone => "None"
            end;
          sort_key := sort_key_config config;
          context := context |}.

(** [PointerItem.generate]; [uuid] is the result of [_generate_uuid]. *)
Definition generate (uuid : UUID) (context : dict) : result PointerItem :=
  PointerItem_init (KUUID uuid) (KStr (sort_key_config config)) context.

(** [PointerItem.from_key_and_context] *)
Definition from_key_and_context (key : string) (context : dict)
    : result PointerItem :=
  PointerItem_init (KStr key) (KStr (sort_key_config config)) context.

(** [PointerItem.get_s3_key] *)
Definition get_s3_key (self : PointerItem) : string := partition_key self.

(** [BaseItem.to_key], on a pointer and on a context item *)
Definition to_key (partition_key sort_key : string) : dict :=
  <[sort_key_name config := sort_key]>
    (<[partition_key_name config := partition_key]> ∅).

(** [PointerItem.to_item]: in [{**key, **self.context}] the context wins. *)
Definition to_item (self : PointerItem) : dict :=
  let key := to_key (partition_key self) (sort_key self) in
  context self ∪ key.

(** [PointerItem.context_from_item] *)
Definition context_from_item (item : option loc) : SE heap loc :=
  match item with
  | None => raise (DataModelException EmptyRecord)
  | Some item =>
      py_del item (partition_key_name config);;
      py_del item (sort_key_name config);;
      deepcopy item
  end.

(** [PointerItem.context_items]: the loop over [self.context.keys()];
    the set that results does not depend on the order of the keys. *)
Definition context_items (self : PointerItem) : result (gset ContextItem) :=
  foldr
    (λ context_key acc,
       result ← acc;
       ci ← ContextItem_init (KStr context_key) (KStr (get_s3_key self));
       Ok ({[ci]} ∪ result))
    (Ok ∅)
    (elements (dom (context self))).

(** [pointer.context_from_item(pointer.to_item())] for
    [pointer = generate(context)], the way [test_context_from_item] runs
    it. *)
Definition extract_generated (uuid : UUID) (context : dict) : SE heap loc :=
  pointer ← lift (generate uuid context);
  item ← alloc (to_item pointer);
  context_from_item (Some item).

(** [DocumentBundle.from_data_and_context] *)
Definition from_data_and_context (uuid : UUID) (data : list Byte.byte)
    (context : dict) : result DocumentBundle :=
  key ← generate uuid context;
  Ok {| key := key; data := data |}.

(** [ContextQuery.__post_init__], on the argument of the constructor *)
Definition ContextQuery_init (partition_key : string) : ContextQuery :=
  {| query_partition_key := canonicalize config partition_key |}.

(** [ContextQuery.expression] *)
Definition expression (self : ContextQuery) : key_condition :=
  KeyEq (partition_key_name config) (query_partition_key self).

(** [PointerItem.filter_for]: [cls.sort_key] is the default of the field. *)
Definition filter_for : key_condition :=
  KeyEq (sort_key_name config) (sort_key_config config).
End Model.

(** ** The collaborators of [api.py]

    The blob store keeps a body and its metadata under a key; the record
    store keeps one row per (partition key, sort key). *)
Record world (ciphertext : Type) := {
  bucket : gmap string (ciphertext * dict);
  table : gmap (string * string) dict;
}.
Arguments bucket {ciphertext} w.
Arguments table {ciphertext} w.

(** The encryption provider: [encrypt] binds the context to the ciphertext,
    [decrypt] gives back the plaintext and the context that was bound. *)
Record provider := {
  ciphertext : Type;
  encrypt : list Byte.byte → dict → result ciphertext;
  decrypt : ciphertext → result (list Byte.byte * dict);
}.

Definition provider_correct (P : provider) : Prop :=
  ∀ data context c,
    encrypt P data context = Ok c → decrypt P c = Ok (data, context).

(** A provider whose ciphertext is the envelope itself. *)
Definition envelope_provider : provider := {|
  ciphertext := list Byte.byte * dict;
  encrypt data context := Ok (data, context);
  decrypt c := Ok c;
|}.

(** ** Membership in the views of a dictionary

    The left operand of [in], among the objects [api.py] puts there. *)
Inductive operand :=
  | OStr (s : string)
  | OTuple2 (k v : string)
  | OSet (s : gset string)       (* a [set] *)
  | OItemsView (d : dict).       (* [d.items()] *)

(** [hash(x)]: a [set] and a view of items have no hash. *)
Definition hashable (x : operand) : bool :=
  match x with
  | OStr _ | OTuple2 _ _ => true
  | OSet _ | OItemsView _ => false
  end.

(** [x in d.keys()]: [x] is hashed and looked up among the keys, which are
    strings. *)
Definition in_dict_keys (x : operand) (d : dict) : result bool :=
  if negb (hashable x) then Raise TypeError
  else match x with
       | OStr s => Ok (bool_decide (s ∈ dom d))
       | _ => Ok false
       end.

(** [x in d.items()]: an object that is not a 2-tuple is in no view of
    items; a 2-tuple is looked up. *)
Definition in_dict_items (x : operand) (d : dict) : result bool :=
  match x with
  | OTuple2 k v => Ok (bool_decide (d !! k = Some v))
  | _ => Ok false
  end.

(** ** [api.py] *)
Section Operations.
Variable config : Config.
Variable P : provider.

Abbreviation World := (world (ciphertext P)).

(** [table.put_item(Item=item)]: the row is addressed by its two key
    attributes. *)
Definition put_item (item : dict) : SE World unit := λ w,
  match item !! partition_key_name config, item !! sort_key_name config with
  | Some pk, Some sk =>
      (Ok (), {| bucket := bucket w; table := <[(pk, sk) := item]> (table w) |})
  | _, _ => (Raise ClientError, w)
  end.

(** [bucket.put_object(Body=body, Key=key, Metadata=metadata)] *)
Definition put_object (body : ciphertext P) (key : string) (metadata : dict)
    : SE World unit := λ w,
  (Ok (), {| bucket := <[key := (body, metadata)]> (bucket w);
             table := table w |}).

(** [DocumentBucketOperations._write_pointer] *)
Definition _write_pointer (item : PointerItem) : SE World unit :=
  put_item (to_item config item).

(** [DocumentBucketOperations._write_object] *)
Definition _write_object (data : ciphertext P) (item : PointerItem)
    : SE World unit :=
  put_object data (get_s3_key item) (context item).

(** [DocumentBucketOperations._get_object] *)
Definition _get_object (item : PointerItem) : SE World (ciphertext P) := λ w,
  match bucket w !! get_s3_key item with
  | Some (body, _) => (Ok body, w)
  | None => (Raise ObjectNotFound, w)
  end.

(** [DocumentBucketOperations._populate_key_records] *)
Definition _populate_key_records (pointer : PointerItem)
    : SE World (gset ContextItem) :=
  context_items ← lift (context_items config pointer);
  foldr
    (λ context_item acc,
       acc;; put_item (to_key config (ctx_partition_key context_item)
                                     (ctx_sort_key context_item)))
    (mret ())
    (elements context_items);;
  mret context_items.

(** [DocumentBucketOperations.retrieve]; [uuid] is what [uuid.uuid4()]
    gives when the bundle is built. *)
Definition retrieve (uuid : UUID) (pointer_key : string)
    (expected_context_keys : gset string) (expected_context : dict)
    : SE World DocumentBundle :=
  item ← lift (from_key_and_context config pointer_key expected_context);
  encrypted_data ← _get_object item;
  '(plaintext, encryption_context) ← lift (decrypt P encrypted_data);
  found ← lift (in_dict_keys (OSet expected_context_keys) encryption_context);
  if negb found then raise AssertionError
  else
    found ← lift (in_dict_items (OItemsView expected_context)
                                encryption_context);
    if negb found then raise AssertionError
    else lift (from_data_and_context config uuid plaintext encryption_context).

(** [DocumentBucketOperations.store]; [uuid] is what [uuid.uuid4()] gives. *)
Definition store (uuid : UUID) (data : list Byte.byte) (context : dict)
    : SE World PointerItem :=
  encrypted_data ← lift (encrypt P data context);
  item ← lift (generate config uuid context);
  _write_pointer item;;
  _write_object encrypted_data item;;
  _populate_key_records item;;
  mret item.

(** [table.scan()["Items"]]: every row of the table, in the order the record
    store gives them. *)
Definition scan : SE World (list dict) := λ w,
  (Ok (map_to_list (table w)).*2, w).

(** The loop of [_scan_table].  Every pointer it builds has the default
    context, so the set of pointers, compared by their keys, is a set of
    records. *)
Fixpoint _scan_table_loop (items : list dict) (pointers : gset PointerItem)
    : result (gset PointerItem) :=
  match items with
  | [] => Ok pointers
  | ddb_item :: items =>
      match ddb_item !! partition_key_name config with
      | None => Raise KeyError
      | Some partition_key =>
          if is_context_key_fmt config partition_key
          then _scan_table_loop items pointers
          else
            pointer ← PointerItem_init config (KStr partition_key)
                        (KStr (sort_key_config config)) ∅;
            _scan_table_loop items ({[pointer]} ∪ pointers)
      end
  end.

(** [DocumentBucketOperations._scan_table] *)
Definition _scan_table : SE World (gset PointerItem) :=
  items ← scan;
  lift (_scan_table_loop items ∅).

(** [DocumentBucketOperations.list] *)
Definition list_ : SE World (gset PointerItem) := _scan_table.
End Operations.

Definition empty_world (P : provider) : world (ciphertext P) :=
  {| bucket := ∅; table := ∅ |}.

(** A table with the pointer row and the index row of one document tagged
    [fleet]. *)
Definition listed_world : world (ciphertext envelope_provider) :=
  {| bucket := ∅;
     table :=
       <[ ("00000000-0000-0000-0000-000000000005", "S3DOC")
          := {[ "reference" := "00000000-0000-0000-0000-000000000005";
                "target" := "S3DOC"; "fleet" := "x" ]} ]>
       {[ ("S3EC-FLEET", "00000000-0000-0000-0000-000000000005")
          := {[ "reference" := "S3EC-FLEET";
                "target" := "00000000-0000-0000-0000-000000000005" ]} ]} |}.

(** A table with one row whose partition key is neither a context key nor a
    UUID. *)
Definition garbage_world : world (ciphertext envelope_provider) :=
  {| bucket := ∅;
     table := {[ ("garbage", "S3DOC")
                 := {[ "reference" := "garbage"; "target" := "S3DOC" ]} ]} |}.

(** ** Facts on strings *)

Lemma upper_char_idem c : upper_char (upper_char c) = upper_char c.
Proof.
  destruct c as [[] [] [] [] [] [] [] []]; reflexivity.
Qed.

Lemma upper_idem s : upper (upper s) = upper s.
Proof.
  induction s as [|c s IH]; simpl; [done|].
  by rewrite upper_char_idem, IH.
Qed.

Lemma upper_app s t : upper (s +:+ t) = upper s +:+ upper t.
Proof. induction s as [|c s IH]; simpl; [done|]. by rewrite IH. Qed.

Lemma prefix_app p s : String.prefix p (p +:+ s) = true.
Proof.
  induction p as [|c p IH]; simpl; [by destruct s|].
  destruct (ascii_dec c c); [done|congruence].
Qed.

Lemma canonicalize_is_context_key_fmt config s :
  is_context_key_fmt config (canonicalize config s) = true.
Proof.
  unfold canonicalize.
  destruct (is_context_key_fmt config (upper s)) eqn:E; simpl; [done|].
  apply prefix_app.
Qed.

Lemma upper_canonicalize config s :
  upper (canonicalize config s) = canonicalize config s.
Proof.
  unfold canonicalize.
  destruct (is_context_key_fmt config (upper s)); simpl.
  - apply upper_idem.
  - unfold _prefix. by rewrite upper_app, !upper_idem.
Qed.

(** C5. Canonicalising a tag twice gives what canonicalising it once gives,
    and a canonical tag starts with the reserved prefix, which is stored in
    upper case. *)
Theorem canonicalize_idempotent (config : Config) (s : string) :
  canonicalize config (canonicalize config s) = canonicalize config s
  ∧ startswith (canonicalize config s) (upper (cfg_ctx_prefix config)) = true.
Proof.
  split.
  - unfold canonicalize at 1.
    rewrite upper_canonicalize.
    by rewrite canonicalize_is_context_key_fmt.
  - apply (canonicalize_is_context_key_fmt config s).
Qed.


(** ** Equality and hashing *)

(** C6. Two records of one class with equal keys are equal and have equal
    hashes, whatever else they carry (so two pointers that differ in their
    context only); records of different classes are never equal: a pointer
    equals neither a context item nor a bare base item, in either order. *)
Theorem equality_by_key_only (hash : key_value * key_value → Z)
    (x y : item) (p : PointerItem) (c : ContextItem) (b : BaseItem) :
  (class_of x = class_of y →
   item_partition_key x = item_partition_key y →
   item_sort_key x = item_sort_key y →
   __eq__ x y = true ∧ __hash__ hash x = __hash__ hash y)
  ∧ (∀ pk sk c1 c2,
       let p1 := {| partition_key := pk; sort_key := sk; context := c1 |} in
       let p2 := {| partition_key := pk; sort_key := sk; context := c2 |} in
       __eq__ (Pointer p1) (Pointer p2) = true
       ∧ __hash__ hash (Pointer p1) = __hash__ hash (Pointer p2))
  ∧ (class_of x ≠ class_of y → __eq__ x y = false)
  ∧ __eq__ (Pointer p) (Context c) = false
  ∧ __eq__ (Context c) (Pointer p) = false
  ∧ __eq__ (Pointer p) (Base b) = false
  ∧ __eq__ (Base b) (Pointer p) = false.
Proof.
  split; [|split; [|split]].
  - intros Hc Hpk Hsk. split.
    + unfold __eq__. rewrite Hc, Hpk, Hsk.
      by rewrite !bool_decide_eq_true_2.
    + unfold __hash__. by rewrite Hpk, Hsk.
  - intros pk sk c1 c2. split; [|reflexivity].
    unfold __eq__; simpl. by rewrite !bool_decide_eq_true_2.
  - intros Hne. unfold __eq__. by rewrite bool_decide_eq_false_2.
  - repeat split.
Qed.

Lemma equality_by_key_only_witness :
  let p1 := {| partition_key := "00000000-0000-0000-0000-000000000005";
               sort_key := "S3DOC"; context := ∅ |} in
  let p2 := {| partition_key := "00000000-0000-0000-0000-000000000005";
               sort_key := "S3DOC"; context := {[ "fleet" := "x" ]} |} in
  __eq__ (Pointer p1) (Pointer p2) = true
  ∧ __hash__ (λ _, 0%Z) (Pointer p1) = __hash__ (λ _, 0%Z) (Pointer p2).
Proof.
  intros p1 p2.
  apply (equality_by_key_only (λ _, 0%Z) (Pointer p1) (Pointer p2) p1
           {| ctx_partition_key := "S3EC-FLEET"; ctx_sort_key := "S3DOC" |}
           {| base_partition_key := KNone; base_sort_key := KNone |});
    reflexivity.
Defined.

(** ** The [uuid] module: parsing and printing *)

Lemma UUID_of_str_cases s :
  (∃ u, UUID_of_str s = Ok u) ∨ UUID_of_str s = Raise ValueError.
Proof.
  unfold UUID_of_str, UUID_of_chars.
  repeat case_match; eauto.
Qed.

Lemma hex_digit_lower_hex d : is_lower_hex (hex_digit d) = true.
Proof.
  destruct d as [|q|q]; try reflexivity.
  do 4 (destruct q as [q|q|]; try reflexivity).
Qed.

Lemma to_hex_length w n : length (to_hex w n) = w.
Proof.
  revert n. induction w as [|w IH]; intros n; simpl; [done|].
  rewrite length_app, IH. simpl. lia.
Qed.

Lemma to_hex_lower_hex w n :
  Forall (λ c, is_lower_hex c = true) (to_hex w n).
Proof.
  revert n. induction w as [|w IH]; intros n; simpl; [constructor|].
  apply Forall_app. split; [apply IH|].
  constructor; [apply hex_digit_lower_hex|constructor].
Qed.

(** The five groups of a printed UUID. *)
Lemma chars_of_UUID_groups u :
  ∃ a b c d e,
    to_hex 32 u = a ++ b ++ c ++ d ++ e
    ∧ chars_of_UUID u =
        a ++ "-"%char :: b ++ "-"%char :: c ++ "-"%char :: d ++ "-"%char :: e
    ∧ length a = 8%nat ∧ length b = 4%nat ∧ length c = 4%nat
    ∧ length d = 4%nat ∧ length e = 12%nat.
Proof.
  unfold chars_of_UUID.
  pose proof (to_hex_length 32 u) as Hlen.
  generalize dependent (to_hex 32 u). intros h Hlen.
  do 32 (destruct h as [|? h]; [discriminate Hlen|]).
  destruct h; [|discriminate Hlen].
  eexists (take 8 _), (slice 8 12 _), (slice 12 16 _), (slice 16 20 _), (drop 20 _).
  split; [|split; [reflexivity|]]; repeat split; reflexivity.
Qed.

Lemma is_canonical_str_of_UUID u : is_canonical_uuid (str_of_UUID u) = true.
Proof.
  unfold is_canonical_uuid, str_of_UUID.
  rewrite list_ascii_of_string_of_list_ascii.
  unfold chars_of_UUID.
  pose proof (to_hex_length 32 u) as Hlen.
  pose proof (to_hex_lower_hex 32 u) as Hhex.
  generalize dependent (to_hex 32 u). intros h Hlen Hhex.
  do 32 (destruct h as [|? h]; [discriminate Hlen|]).
  destruct h; [|discriminate Hlen].
  repeat match goal with
         | H : Forall _ (_ :: _) |- _ => apply Forall_cons in H; destruct H
         end.
  cbn -[is_lower_hex].
  repeat match goal with
         | H : is_lower_hex _ = true |- _ => rewrite H; clear H
         end.
  reflexivity.
Qed.

Lemma replace_no_head o old new s :
  Forall (λ c, c ≠ o) s → replace (o :: old) new s = s.
Proof.
  unfold replace. induction 1 as [|c s Hc _ IH]; simpl; [done|].
  rewrite bool_decide_eq_false_2 by congruence. simpl. by rewrite IH.
Qed.

Lemma replace_hyphen s :
  replace ["-"%char] [] s = filter (λ c, c ≠ "-"%char) s.
Proof.
  unfold replace. induction s as [|c s IH]; simpl; [done|].
  destruct (decide (c = "-"%char)) as [->|Hc].
  - rewrite filter_cons_False by (intros ?; congruence). by rewrite <- IH.
  - rewrite bool_decide_eq_false_2 by congruence. simpl.
    rewrite filter_cons_True by done. by rewrite IH.
Qed.

Lemma lstrip_id cs s : Forall (λ c, c ∉ cs) s → lstrip cs s = s.
Proof.
  destruct 1 as [|c s Hc _]; simpl; [done|].
  by rewrite bool_decide_eq_false_2.
Qed.

Lemma strip_id cs s : Forall (λ c, c ∉ cs) s → strip cs s = s.
Proof.
  intros H. unfold strip, rstrip.
  rewrite (lstrip_id cs s H).
  rewrite lstrip_id by (by apply Forall_rev).
  apply rev_involutive.
Qed.

(** What the parser needs to know of a lower-case hexadecimal digit. *)
Lemma lower_hex_char c :
  is_lower_hex c = true →
  c ≠ "u"%char ∧ c ≠ "-"%char ∧ c ≠ "{"%char ∧ c ≠ "}"%char
  ∧ c ≠ "+"%char ∧ c ≠ "_"%char ∧ c ≠ "x"%char ∧ c ≠ "X"%char
  ∧ is_space c = false ∧ is_Some (hex_val c).
Proof.
  destruct c as [[] [] [] [] [] [] [] []]; try discriminate;
    intros _; repeat split; try discriminate; by eexists.
Qed.

Lemma scan_digits_hex s acc :
  Forall (λ c, is_lower_hex c = true) s →
  scan_digits acc false s = Some (hex_value acc s, []).
Proof.
  intros H. revert acc. induction H as [|c s Hc _ IH]; intros acc; simpl; [done|].
  destruct (lower_hex_char c Hc) as (_ & _ & _ & _ & _ & Hus & _ & _ & _ & [d Hd]).
  rewrite bool_decide_eq_false_2 by done.
  unfold hex_value at 1; simpl. rewrite Hd. simpl. apply IH.
Qed.

Lemma match_not_underscore {A} (c : ascii) (s : chars) (x y : A) :
  c ≠ "_"%char →
  match c :: s with "_"%char :: _ => x | _ => y end = y.
Proof. intros Hc. repeat case_match; congruence. Qed.

Lemma match_no_sign (c : ascii) (s : chars) :
  c ≠ "+"%char → c ≠ "-"%char →
  match c :: s with
  | "+"%char :: t => (1%Z, t)
  | "-"%char :: t => ((-1)%Z, t)
  | _ => (1%Z, c :: s)
  end = (1%Z, c :: s).
Proof. intros H1 H2. repeat case_match; congruence. Qed.

Lemma match_no_prefix (c : ascii) (s : chars) :
  Forall (λ c, is_lower_hex c = true) s →
  match c :: s with
  | "0"%char :: x :: t =>
      if bool_decide (x = "x"%char) || bool_decide (x = "X"%char)
      then match t with "_"%char :: t' => t' | _ => t end
      else c :: s
  | _ => c :: s
  end = c :: s.
Proof.
  intros Hs. destruct s as [|x t]; [by repeat case_match|].
  apply Forall_cons in Hs as [Hx _].
  destruct (lower_hex_char x Hx) as (_ & _ & _ & _ & _ & _ & Hx1 & Hx2 & _).
  rewrite !bool_decide_eq_false_2 by done. by repeat case_match.
Qed.

Lemma int16_hex s :
  s ≠ [] → Forall (λ c, is_lower_hex c = true) s →
  int16 s = Some (hex_value 0 s).
Proof.
  intros Hne H. unfold int16.
  destruct H as [|c s Hc Hs]; [done|].
  destruct (lower_hex_char c Hc)
    as (_ & Hmin & _ & _ & Hplus & Hus & _ & _ & Hsp & _).
  assert (Hscan := scan_digits_hex (c :: s) 0 (Forall_cons_2 _ _ _ Hc Hs)).
  change (skip_spaces (c :: s))
    with (if is_space c then skip_spaces s else c :: s).
  rewrite Hsp, (match_no_sign c s Hplus Hmin), (match_no_prefix c s Hs).
  rewrite (match_not_underscore c s _ _ Hus), Hscan.
  rewrite bool_decide_eq_false_2 by (simpl; lia).
  simpl skip_spaces. f_equal. lia.
Qed.

Lemma hex_val_hex_digit d : (0 ≤ d < 16)%Z → hex_val (hex_digit d) = Some d.
Proof.
  intros Hd.
  assert (d ∈ [0; 1; 2; 3; 4; 5; 6; 7; 8; 9; 10; 11; 12; 13; 14; 15]%Z) as Hin.
  { rewrite !elem_of_cons. lia. }
  repeat (apply elem_of_cons in Hin as [->|Hin]; [reflexivity|]).
  by apply elem_of_nil in Hin.
Qed.

Lemma hex_value_app acc s t :
  hex_value acc (s ++ t) = hex_value (hex_value acc s) t.
Proof. apply fold_left_app. Qed.

Lemma hex_value_to_hex w n acc :
  hex_value acc (to_hex w n) = (acc * 16 ^ Z.of_nat w + n mod 16 ^ Z.of_nat w)%Z.
Proof.
  revert n. induction w as [|w IH]; intros n.
  - simpl. rewrite Z.mod_1_r. lia.
  - cbn [to_hex]. rewrite hex_value_app, IH.
    unfold hex_value; cbn [fold_left].
    rewrite hex_val_hex_digit by (apply Z.mod_pos_bound; lia).
    cbn [default].
    rewrite Nat2Z.inj_succ, Z.pow_succ_r by lia.
    rewrite (Z.rem_mul_r n 16 (16 ^ Z.of_nat w)) by lia.
    unfold id. ring.
Qed.

Lemma to_hex_mod w n : to_hex w (n mod 16 ^ Z.of_nat w) = to_hex w n.
Proof.
  revert n. induction w as [|w IH]; intros n; [done|].
  cbn [to_hex].
  rewrite Nat2Z.inj_succ, Z.pow_succ_r by lia.
  rewrite (Z.rem_mul_r n 16 (16 ^ Z.of_nat w)) by lia.
  assert (0 ≤ n mod 16 < 16)%Z as Hr by (apply Z.mod_pos_bound; lia).
  set (m := ((n / 16) mod 16 ^ Z.of_nat w)%Z).
  replace ((n mod 16 + 16 * m) / 16)%Z with m
    by (apply (Z.div_unique_pos _ 16 m (n mod 16)); lia).
  replace ((n mod 16 + 16 * m) mod 16)%Z with (n mod 16)%Z
    by (apply (Z.mod_unique_pos _ 16 m (n mod 16)); lia).
  subst m.
  by rewrite IH.
Qed.

Lemma str_of_UUID_mod (u : UUID) :
  str_of_UUID (u mod 2 ^ 128)%Z = str_of_UUID u.
Proof.
  unfold str_of_UUID, chars_of_UUID.
  change (2 ^ 128)%Z with (16 ^ Z.of_nat 32)%Z.
  by rewrite to_hex_mod.
Qed.

(** Parsing a printed UUID gives the UUID back. *)
Lemma UUID_of_str_str_of_UUID (u : UUID) :
  UUID_of_str (str_of_UUID u) = Ok (u mod 2 ^ 128)%Z.
Proof.
  unfold UUID_of_str, str_of_UUID.
  rewrite list_ascii_of_string_of_list_ascii.
  destruct (chars_of_UUID_groups u)
    as (a & b & c & d & e & Hh & -> & Ha & Hb & Hc & Hd & He).
  pose proof (to_hex_lower_hex 32 u) as Hhex. rewrite Hh in Hhex.
  assert (Hall : Forall (λ x, is_lower_hex x = true ∨ x = "-"%char)
            (a ++ "-"%char :: b ++ "-"%char :: c ++ "-"%char :: d ++ "-"%char :: e)).
  { rewrite !Forall_app in Hhex. destruct Hhex as (?&?&?&?&?).
    assert (Hw : ∀ l, Forall (λ x, is_lower_hex x = true) l →
              Forall (λ x, is_lower_hex x = true ∨ x = "-"%char) l)
      by (intros l Hl; eapply Forall_impl; eauto).
    repeat first [ apply Forall_app_2 | apply Forall_cons_2 ]; auto. }
  unfold UUID_of_chars. cbn [list_ascii_of_string].
  assert (Hu : Forall (λ x, x ≠ "u"%char)
            (a ++ "-"%char :: b ++ "-"%char :: c ++ "-"%char :: d ++ "-"%char :: e)).
  { eapply Forall_impl; [exact Hall|]. intros x [Hx| ->]; [|done].
    by destruct (lower_hex_char x Hx) as (? & _). }
  rewrite (replace_no_head "u"%char ["r"; "n"; ":"]%char) by exact Hu.
  rewrite (replace_no_head "u"%char) by exact Hu.
  rewrite strip_id; cycle 1.
  { eapply Forall_impl; [exact Hall|]. intros x Hx.
    rewrite !elem_of_cons, elem_of_nil.
    destruct Hx as [Hx| ->]; [|intros [|[|[]]]; discriminate].
    destruct (lower_hex_char x Hx) as (_ & _ & ? & ? & _). tauto. }
  rewrite replace_hyphen.
  assert (Hfilter : ∀ l, Forall (λ x, is_lower_hex x = true) l →
            filter (λ x, x ≠ "-"%char) l = l).
  { intros l Hl. induction Hl as [|x l Hx _ IH]; [done|].
    rewrite filter_cons_True, IH; [done|].
    by destruct (lower_hex_char x Hx) as (_ & ? & _). }
  rewrite !Forall_app in Hhex. destruct Hhex as (Fa & Fb & Fc & Fd & Fe).
  repeat (rewrite filter_app || rewrite filter_cons_False by (intros ?; congruence)).
  rewrite !Hfilter by done.
  rewrite <- Hh.
  rewrite bool_decide_eq_false_2 by (rewrite to_hex_length; lia).
  rewrite int16_hex; [|by intros H; apply (f_equal length) in H;
                         rewrite to_hex_length in H|apply to_hex_lower_hex].
  rewrite hex_value_to_hex.
  change (16 ^ Z.of_nat 32)%Z with (2 ^ 128)%Z.
  rewrite bool_decide_eq_true_2 by (rewrite Z.mul_0_l, Z.add_0_l; apply Z.mod_pos_bound; lia).
  f_equal.
Qed.

Lemma UUID_of_str_range s u : UUID_of_str s = Ok u → (0 ≤ u < 2 ^ 128)%Z.
Proof.
  unfold UUID_of_str, UUID_of_chars.
  repeat case_match; try discriminate.
  intros [= <-]. by eapply bool_decide_eq_true_1.
Qed.

(** ** Construction of pointer records *)

Lemma _validate_reserved_ec_keys_Ok config (context : dict) :
  partition_key_name config ∉ dom context →
  sort_key_name config ∉ dom context →
  _validate_reserved_ec_keys config context = Ok ().
Proof.
  intros H1 H2. unfold _validate_reserved_ec_keys.
  by rewrite !bool_decide_eq_false_2.
Qed.

Lemma _validate_reserved_ec_keys_Raise config (context : dict) :
  partition_key_name config ∈ dom context
  ∨ sort_key_name config ∈ dom context →
  _validate_reserved_ec_keys config context
  = Raise (DataModelException ReservedKeyCollision).
Proof.
  intros H. unfold _validate_reserved_ec_keys.
  destruct H as [H|H]; rewrite (bool_decide_eq_true_2 _ H); [done|].
  by rewrite orb_true_r.
Qed.

Lemma _validate_reserved_ec_keys_inv config (context : dict) :
  _validate_reserved_ec_keys config context = Ok () →
  (partition_key_name config ∉ dom context)
  ∧ (sort_key_name config ∉ dom context).
Proof.
  unfold _validate_reserved_ec_keys.
  destruct (bool_decide _) eqn:E1; [done|].
  destruct (bool_decide (sort_key_name _ ∈ _)) eqn:E2; [done|].
  intros _. split; by eapply bool_decide_eq_false_1.
Qed.

Lemma generate_Ok config (uuid : UUID) (context : dict) :
  partition_key_name config ∉ dom context →
  sort_key_name config ∉ dom context →
  generate config uuid context
  = Ok {| partition_key := str_of_UUID uuid;
          sort_key := sort_key_config config;
          context := context |}.
Proof.
  intros H1 H2. unfold generate, PointerItem_init. simpl.
  rewrite _validate_reserved_ec_keys_Ok by done. simpl.
  by rewrite bool_decide_eq_false_2 by (intros H; by apply H).
Qed.

Lemma from_key_and_context_Ok config key (u : UUID) (context : dict) :
  UUID_of_str key = Ok u →
  partition_key_name config ∉ dom context →
  sort_key_name config ∉ dom context →
  from_key_and_context config key context
  = Ok {| partition_key := str_of_UUID u;
          sort_key := sort_key_config config;
          context := context |}.
Proof.
  intros Hu H1 H2. unfold from_key_and_context, PointerItem_init. simpl.
  rewrite Hu. simpl.
  rewrite _validate_reserved_ec_keys_Ok by done. simpl.
  by rewrite bool_decide_eq_false_2 by (intros H; by apply H).
Qed.

(** What holds of every pointer the constructor returns. *)
Lemma PointerItem_init_inv config pk sk (ctx : dict) p :
  PointerItem_init config pk sk ctx = Ok p →
  (∃ u : UUID, partition_key p = str_of_UUID u
               ∧ (∀ s, pk = KStr s → UUID_of_str s = Ok u)
               ∧ (∀ v, pk = KUUID v → u = v))
  ∧ sort_key p = sort_key_config config
  ∧ context p = ctx
  ∧ sk = KStr (sort_key_config config)
  ∧ (partition_key_name config ∉ dom ctx)
  ∧ (sort_key_name config ∉ dom ctx).
Proof.
  unfold PointerItem_init, _assert_set.
  destruct pk as [|s|v]; simpl; [done| |].
  - destruct (bool_decide (sk = KNone)); [done|]. simpl.
    destruct (UUID_of_str s) as [u|e] eqn:Hu; [|done]. simpl.
    destruct (_validate_reserved_ec_keys config ctx) as [[]|e] eqn:Hv; [|done].
    apply _validate_reserved_ec_keys_inv in Hv as [H1 H2]. simpl.
    case_bool_decide as Hsk; [done|].
    intros [= <-]; simpl. repeat split; try done.
    exists u. repeat split; [by intros ? [= <-]|by intros ? [=]].
  - destruct (bool_decide (sk = KNone)); [done|]. simpl.
    destruct (_validate_reserved_ec_keys config ctx) as [[]|e] eqn:Hv; [|done].
    apply _validate_reserved_ec_keys_inv in Hv as [H1 H2]. simpl.
    case_bool_decide as Hsk; [done|].
    intros [= <-]; simpl. repeat split; try done.
    exists v. repeat split; [by intros ? [=]|by intros ? [= <-]].
Qed.




(** C8. A string that does not parse as a UUID makes the construction of a
    pointer fail with [ValueError], [PointerItem("not-a-uuid")] among them;
    for a string that parses, the partition key that is stored is the
    printed form of the UUID: canonical, and denoting the same UUID. *)
Theorem pointer_key_validated (config : Config) (s : string)
    (sk : key_value) (context : dict) :
  (UUID_of_str s = Raise ValueError → sk ≠ KNone →
   PointerItem_init config (KStr s) sk context = Raise ValueError)
  ∧ (∀ p, PointerItem_init config (KStr s) sk context = Ok p →
       ∃ u, UUID_of_str s = Ok u
            ∧ partition_key p = str_of_UUID u
            ∧ is_canonical_uuid (partition_key p) = true
            ∧ UUID_of_str (partition_key p) = Ok u)
  ∧ (∀ u, UUID_of_str s = Ok u →
       (partition_key_name config ∉ dom context) →
       (sort_key_name config ∉ dom context) →
       ∃ p, PointerItem_init config (KStr s) (KStr (sort_key_config config))
              context = Ok p
            ∧ partition_key p = str_of_UUID u)
  ∧ PointerItem_init config (KStr "not-a-uuid")
      (KStr (sort_key_config config)) ∅ = Raise ValueError.
Proof.
  split; [|split; [|split]].
  - intros Hs Hsk. unfold PointerItem_init, _assert_set. simpl.
    rewrite (bool_decide_eq_false_2 (sk = KNone)) by done. simpl.
    by rewrite Hs.
  - intros p Hp.
    apply PointerItem_init_inv in Hp as ((u & Hpk & Hu & _) & _).
    specialize (Hu s eq_refl). exists u.
    rewrite Hpk. repeat split; [done| |].
    + apply is_canonical_str_of_UUID.
    + rewrite UUID_of_str_str_of_UUID.
      by rewrite Z.mod_small by (by eapply UUID_of_str_range).
  - intros u Hu H1 H2. eexists. split.
    + by apply from_key_and_context_Ok.
    + reflexivity.
  - reflexivity.
Qed.

Lemma pointer_key_validated_witness :
  PointerItem_init sample_config (KStr "garbage") (KStr "S3DOC") ∅
  = Raise ValueError
  ∧ ∃ p, PointerItem_init sample_config
           (KStr "{12345678123456781234567812ABCDEF}") (KStr "S3DOC") ∅ = Ok p
         ∧ partition_key p = "12345678-1234-5678-1234-567812abcdef".
Proof.
  split.
  - refine (proj1 (pointer_key_validated sample_config "garbage"
                     (KStr "S3DOC") ∅) _ _); [by vm_compute|done].
  - destruct (pointer_key_validated sample_config
                "{12345678123456781234567812ABCDEF}" (KStr "S3DOC") ∅)
      as (_ & _ & H & _).
    destruct (H 24197857161011715162171839636996607471%Z) as (p & Hp & Hk).
    + by vm_compute.
    + by rewrite dom_empty_L; apply not_elem_of_empty.
    + by rewrite dom_empty_L; apply not_elem_of_empty.
    + exists p. split; [exact Hp|]. rewrite Hk. by vm_compute.
Defined.

(** ** Context extraction *)

Lemma context_from_item_Some config (h : heap) (l : loc) (d : dict) :
  config_wf config →
  h !! l = Some d →
  partition_key_name config ∈ dom d →
  sort_key_name config ∈ dom d →
  let d' := delete (sort_key_name config) (delete (partition_key_name config) d) in
  let l' := fresh (dom h) in
  context_from_item config (Some l) h
  = (Ok l', <[l' := d']> (<[l := d']> h)).
Proof.
  intros Hwf Hl Hpk Hsk d' l'.
  apply elem_of_dom in Hpk as [v Hpk]. apply elem_of_dom in Hsk as [w Hsk].
  unfold context_from_item, mbind, SE_bind, py_del, deepcopy, alloc.
  rewrite Hl, Hpk, lookup_insert_eq.
  rewrite lookup_delete_ne by exact Hwf. rewrite Hsk.
  rewrite insert_insert_eq, lookup_insert_eq.
  rewrite dom_insert_L.
  replace ({[l]} ∪ dom h) with (dom h); [done|].
  apply elem_of_dom_2 in Hl. symmetry.
  apply subseteq_union_1_L. by apply singleton_subseteq_l.
Qed.

Lemma to_item_lookup_partition_key config p :
  config_wf config →
  partition_key_name config ∉ dom (context p) →
  to_item config p !! partition_key_name config = Some (partition_key p).
Proof.
  intros Hwf Hpk. unfold to_item, to_key.
  apply not_elem_of_dom in Hpk.
  rewrite lookup_union_r by done.
  rewrite lookup_insert_ne by (intros H; by apply Hwf).
  apply lookup_insert_eq.
Qed.

Lemma to_item_lookup_sort_key config p :
  sort_key_name config ∉ dom (context p) →
  to_item config p !! sort_key_name config = Some (sort_key p).
Proof.
  intros Hsk. unfold to_item, to_key.
  apply not_elem_of_dom in Hsk.
  rewrite lookup_union_r by done.
  apply lookup_insert_eq.
Qed.

(** Removing the two key fields of a flattened pointer leaves its context. *)
Lemma delete_keys_to_item config p :
  partition_key_name config ∉ dom (context p) →
  sort_key_name config ∉ dom (context p) →
  delete (sort_key_name config)
    (delete (partition_key_name config) (to_item config p))
  = context p.
Proof.
  intros Hpk%not_elem_of_dom Hsk%not_elem_of_dom.
  apply map_eq. intros k. unfold to_item, to_key.
  destruct (decide (k = sort_key_name config)) as [->|Hk1].
  { by rewrite lookup_delete_eq. }
  rewrite lookup_delete_ne by done.
  destruct (decide (k = partition_key_name config)) as [->|Hk2].
  { by rewrite lookup_delete_eq. }
  rewrite lookup_delete_ne by done.
  destruct (context p !! k) as [v|] eqn:E.
  - by erewrite lookup_union_Some_l.
  - rewrite lookup_union_r by done.
    by rewrite !lookup_insert_ne by done.
Qed.

(** C9. For a context without reserved names, extracting the context from
    the flattened record of the pointer generated for it gives a dictionary
    equal to the context. *)
Theorem context_extraction_exact (config : Config) (uuid : UUID)
    (c : dict) (h : heap) :
  config_wf config →
  (partition_key_name config ∉ dom c) →
  (sort_key_name config ∉ dom c) →
  ∃ p l h',
    generate config uuid c = Ok p
    ∧ extract_generated config uuid c h = (Ok l, h')
    ∧ h' !! l = Some c
    ∧ delete (sort_key_name config)
        (delete (partition_key_name config) (to_item config p)) = c.
Proof.
  intros Hwf Hpk Hsk.
  pose proof (generate_Ok config uuid c Hpk Hsk) as Hgen.
  set (p := {| partition_key := str_of_UUID uuid;
               sort_key := sort_key_config config; context := c |}) in *.
  pose proof (delete_keys_to_item config p Hpk Hsk) as Hdel.
  set (l0 := fresh (dom h)).
  set (h1 := <[l0 := to_item config p]> h).
  assert (Hrun : context_from_item config (Some l0) h1
                 = (Ok (fresh (dom h1)),
                    <[fresh (dom h1) := c]> (<[l0 := c]> h1))).
  { pose proof (context_from_item_Some config h1 l0 (to_item config p) Hwf)
      as Hrun.
    cbv zeta in Hrun. rewrite Hdel in Hrun. apply Hrun.
    - apply lookup_insert_eq.
    - apply elem_of_dom. eexists.
      by apply (to_item_lookup_partition_key config p).
    - apply elem_of_dom. eexists.
      by apply (to_item_lookup_sort_key config p). }
  exists p, (fresh (dom h1)), (<[fresh (dom h1) := c]> (<[l0 := c]> h1)).
  repeat split; [done| |apply lookup_insert_eq|done].
  unfold extract_generated, mbind, SE_bind, lift, alloc.
  rewrite Hgen. exact Hrun.
Qed.

Lemma context_extraction_exact_witness :
  ∃ p l h',
    generate sample_config 5%Z {[ "fleet" := "coolbeans"; "region" := "sp-moon-1" ]}
    = Ok p
    ∧ extract_generated sample_config 5%Z
        {[ "fleet" := "coolbeans"; "region" := "sp-moon-1" ]} ∅ = (Ok l, h')
    ∧ h' !! l = Some {[ "fleet" := "coolbeans"; "region" := "sp-moon-1" ]}
    ∧ delete (sort_key_name sample_config)
        (delete (partition_key_name sample_config) (to_item sample_config p))
      = {[ "fleet" := "coolbeans"; "region" := "sp-moon-1" ]}.
Proof.
  apply (context_extraction_exact sample_config 5%Z
           {[ "fleet" := "coolbeans"; "region" := "sp-moon-1" ]} ∅).
  - discriminate.
  - apply not_elem_of_dom. reflexivity.
  - apply not_elem_of_dom. reflexivity.
Defined.




(** ** Index records *)

Lemma bind_Ok {A B} (a : A) (k : A → result B) : (Ok a ≫= k) = k a.
Proof. reflexivity. Qed.

Lemma bind_Raise {A B} (e : exn) (k : A → result B) :
  (Raise e ≫= k) = Raise e.
Proof. reflexivity. Qed.

Lemma size_list_to_set_le `{Countable A} (l : list A) :
  (size (list_to_set l : gset A) ≤ length l)%nat.
Proof.
  induction l as [|x l IH]; cbn [list_to_set length].
  - rewrite size_empty. lia.
  - rewrite size_union_alt, size_singleton.
    assert (size (list_to_set l ∖ {[x]} : gset A)
            ≤ size (list_to_set l : gset A))%nat.
    { apply subseteq_size. apply subseteq_difference_l. done. }
    lia.
Qed.

Lemma size_set_map_le `{Countable A, Countable B} (f : A → B) (X : gset A) :
  (size (set_map f X : gset B) ≤ size X)%nat.
Proof.
  unfold set_map.
  etrans; [apply size_list_to_set_le|].
  by rewrite length_fmap.
Qed.

Lemma size_set_map_inj `{Countable A, Countable B} (f : A → B) (X : gset A) :
  (∀ x y, x ∈ X → y ∈ X → f x = f y → x = y) →
  size (set_map f X : gset B) = size X.
Proof.
  intros Hinj. unfold set_map.
  rewrite size_list_to_set.
  - by rewrite length_fmap.
  - apply NoDup_fmap_2_strong; [|apply NoDup_elements].
    intros x y Hx%elem_of_elements Hy%elem_of_elements. by apply Hinj.
Qed.

Lemma ContextItem_init_Ok config k (u : UUID) :
  ContextItem_init config (KStr k) (KStr (str_of_UUID u))
  = Ok {| ctx_partition_key := canonicalize config k;
          ctx_sort_key := str_of_UUID u |}.
Proof.
  unfold ContextItem_init, _assert_set.
  rewrite !bool_decide_eq_false_2 by done.
  unfold mbind, result_bind.
  by rewrite UUID_of_str_str_of_UUID, str_of_UUID_mod.
Qed.

Lemma context_items_loop config (u : UUID) (l : list string) :
  foldr
    (λ context_key acc,
       result ← acc;
       ci ← ContextItem_init config (KStr context_key) (KStr (str_of_UUID u));
       Ok ({[ci]} ∪ result))
    (Ok (∅ : gset ContextItem)) l
  = Ok (list_to_set
          ((λ k, {| ctx_partition_key := canonicalize config k;
                    ctx_sort_key := str_of_UUID u |}) <$> l)).
Proof.
  induction l as [|k l IH]; [reflexivity|].
  cbn [foldr]. rewrite IH, bind_Ok, ContextItem_init_Ok, bind_Ok.
  rewrite fmap_cons, list_to_set_cons. reflexivity.
Qed.

Lemma context_items_Ok config p (u : UUID) :
  partition_key p = str_of_UUID u →
  context_items config p
  = Ok (set_map (λ k, {| ctx_partition_key := canonicalize config k;
                         ctx_sort_key := get_s3_key p |})
          (dom (context p))).
Proof.
  intros Hp. unfold context_items, get_s3_key. rewrite Hp.
  apply context_items_loop.
Qed.

(** C4, the claim as stated fails: two tag names that differ in case only
    have one canonical form, and the set holds one record for both. *)
Lemma index_fan_out_case_collision :
  let ctx : dict := {[ "fleet" := "a"; "FLEET" := "b" ]} in
  let p := {| partition_key := "00000000-0000-0000-0000-000000000005";
              sort_key := "S3DOC"; context := ctx |} in
  let S : gset ContextItem :=
    {[ {| ctx_partition_key := "S3EC-FLEET";
          ctx_sort_key := "00000000-0000-0000-0000-000000000005" |} ]} in
  generate sample_config 5%Z ctx = Ok p
  ∧ size (dom (context p)) = 2%nat
  ∧ context_items sample_config p = Ok S
  ∧ size S = 1%nat.
Proof.
  intros ctx p S.
  split; [vm_compute; reflexivity|].
  split; [vm_compute; reflexivity|].
  split; [|apply size_singleton].
  rewrite (context_items_Ok sample_config p 5%Z) by (vm_compute; reflexivity).
  apply (f_equal Ok). subst p; cbn [context get_s3_key partition_key].
  unfold ctx. rewrite dom_insert_L, dom_singleton_L.
  rewrite set_map_union_L, !set_map_singleton_L.
  replace (canonicalize sample_config "fleet") with "S3EC-FLEET"
    by (vm_compute; reflexivity).
  replace (canonicalize sample_config "FLEET") with "S3EC-FLEET"
    by (vm_compute; reflexivity).
  apply union_idemp_L.
Qed.

(** C4, amended. The pointer gives one index record per canonical form of
    its tag names: the set holds exactly the records whose partition key is
    the canonical form of a tag name and whose sort key is the storage key of
    the pointer; it has as many records as the tag names have canonical
    forms, hence at most N, and exactly N when no two tag names share a
    canonical form. *)
Theorem index_fan_out (config : Config) (pk sk : key_value) (ctx : dict)
    (p : PointerItem) :
  PointerItem_init config pk sk ctx = Ok p →
  ∃ S : gset ContextItem,
    context_items config p = Ok S
    ∧ (∀ ci, ci ∈ S ↔
         ∃ k, k ∈ dom (context p)
              ∧ ci = {| ctx_partition_key := canonicalize config k;
                        ctx_sort_key := get_s3_key p |})
    ∧ size S = size (set_map (canonicalize config) (dom (context p))
                       : gset string)
    ∧ (size S ≤ size (dom (context p)))%nat
    ∧ ((∀ k1 k2, k1 ∈ dom (context p) → k2 ∈ dom (context p) →
          canonicalize config k1 = canonicalize config k2 → k1 = k2) →
       size S = size (dom (context p))).
Proof.
  intros Hp.
  apply PointerItem_init_inv in Hp as ((u & Hpk & _) & _).
  eexists. split; [by apply (context_items_Ok config p u)|].
  set (mk := λ c, {| ctx_partition_key := c; ctx_sort_key := get_s3_key p |}).
  split; [|split; [|split]].
  - intros ci. rewrite elem_of_map. split.
    + intros (k & -> & Hk). by exists k.
    + intros (k & Hk & ->). by exists k.
  - rewrite <- (size_set_map_inj mk
                  (set_map (canonicalize config) (dom (context p)))).
    + f_equal. apply set_eq. intros ci. rewrite !elem_of_map. split.
      * intros (k & -> & Hk). exists (canonicalize config k).
        split; [done|]. apply elem_of_map. by exists k.
      * intros (c & -> & (k & -> & Hk)%elem_of_map). by exists k.
    + by intros x y _ _ [= ->].
  - apply size_set_map_le.
  - intros Hinj. apply size_set_map_inj.
    intros k1 k2 Hk1 Hk2 [= E]. by apply Hinj.
Qed.

Lemma index_fan_out_witness :
  ∃ S : gset ContextItem,
    context_items sample_config
      {| partition_key := "00000000-0000-0000-0000-000000000005";
         sort_key := "S3DOC";
         context := {[ "fleet" := "x"; "region" := "y" ]} |} = Ok S
    ∧ size S = 2%nat.
Proof.
  destruct (index_fan_out sample_config (KUUID 5%Z) (KStr "S3DOC")
              {[ "fleet" := "x"; "region" := "y" ]}
              {| partition_key := "00000000-0000-0000-0000-000000000005";
                 sort_key := "S3DOC";
                 context := {[ "fleet" := "x"; "region" := "y" ]} |})
    as (S & HS & _ & _ & _ & Hsize).
  - by vm_compute.
  - exists S. split; [exact HS|].
    rewrite Hsize; [by vm_compute|].
    simpl context. intros k1 k2.
    rewrite dom_insert_L, dom_singleton_L, !elem_of_union, !elem_of_singleton.
    intros [->| ->] [->| ->] E; first [reflexivity | by vm_compute in E].
Defined.

(** ** Running stateful computations *)

Lemma SE_bind_Ok {S A B} (m : SE S A) (k : A → SE S B) s a s' :
  m s = (Ok a, s') → (m ≫= k) s = k a s'.
Proof. intros Hm. unfold mbind, SE_bind. by rewrite Hm. Qed.

Lemma SE_bind_Raise {S A B} (m : SE S A) (k : A → SE S B) s e s' :
  m s = (Raise e, s') → (m ≫= k) s = (Raise e, s').
Proof. intros Hm. unfold mbind, SE_bind. by rewrite Hm. Qed.

(** ** Store and retrieve *)

(** The membership tests of [retrieve]: a set on the left of
    [in d.keys()] raises, a view on the left of [in d.items()] is not
    found. *)
Lemma in_dict_keys_set (s : gset string) (d : dict) :
  in_dict_keys (OSet s) d = Raise TypeError.
Proof. reflexivity. Qed.

Lemma in_dict_items_view (e d : dict) :
  in_dict_items (OItemsView e) d = Ok false.
Proof. reflexivity. Qed.

Lemma from_key_and_context_printed config (u : UUID) (context : dict) :
  (partition_key_name config ∉ dom context) →
  (sort_key_name config ∉ dom context) →
  from_key_and_context config (str_of_UUID u) context
  = Ok {| partition_key := str_of_UUID u;
          sort_key := sort_key_config config;
          context := context |}.
Proof.
  intros H1 H2.
  rewrite (from_key_and_context_Ok config _ _ context
             (UUID_of_str_str_of_UUID u) H1 H2).
  by rewrite str_of_UUID_mod.
Qed.

(** No call of [retrieve] returns a bundle. *)
Lemma retrieve_never_returns config P uuid pointer_key
    (expected_context_keys : gset string) (expected_context : dict) w b w' :
  retrieve config P uuid pointer_key expected_context_keys expected_context w
  ≠ (Ok b, w').
Proof.
  unfold retrieve, mbind, SE_bind, lift, _get_object.
  destruct (from_key_and_context _ _ _) as [item|]; [|done].
  destruct (bucket w !! get_s3_key item) as [[body md]|]; [|done].
  destruct (decrypt P body) as [[plaintext ec]|]; [|done].
  by rewrite in_dict_keys_set.
Qed.

(** With a key that parses, an object under it and a ciphertext that
    decrypts, [retrieve] raises [TypeError] at its first assertion. *)
Lemma retrieve_raises_TypeError config P uuid (u : UUID)
    (expected_context_keys : gset string) (expected_context : dict)
    w body md plaintext ec :
  (partition_key_name config ∉ dom expected_context) →
  (sort_key_name config ∉ dom expected_context) →
  bucket w !! str_of_UUID u = Some (body, md) →
  decrypt P body = Ok (plaintext, ec) →
  retrieve config P uuid (str_of_UUID u) expected_context_keys
    expected_context w
  = (Raise TypeError, w).
Proof.
  intros H1 H2 Hobj Hdec. unfold retrieve.
  erewrite SE_bind_Ok; cycle 1.
  { unfold lift. by rewrite from_key_and_context_printed. }
  erewrite SE_bind_Ok; cycle 1.
  { unfold _get_object, get_s3_key. cbn [partition_key]. by rewrite Hobj. }
  erewrite SE_bind_Ok; cycle 1.
  { unfold lift. by rewrite Hdec. }
  cbv beta iota.
  erewrite SE_bind_Raise; [reflexivity|].
  unfold lift. by rewrite in_dict_keys_set.
Qed.

Lemma put_item_to_key config P pk sk (w : world (ciphertext P)) :
  config_wf config →
  ∃ w', put_item config P (to_key config pk sk) w = (Ok (), w')
        ∧ bucket w' = bucket w.
Proof.
  intros Hwf. unfold put_item, to_key.
  rewrite lookup_insert_ne by (intros E; by apply Hwf).
  rewrite !lookup_insert_eq. by eexists.
Qed.

Lemma populate_loop config P (l : list ContextItem) (w : world (ciphertext P)) :
  config_wf config →
  ∃ w',
    foldr
      (λ context_item acc,
         acc;; put_item config P
                 (to_key config (ctx_partition_key context_item)
                    (ctx_sort_key context_item)))
      (mret ()) l w = (Ok (), w')
    ∧ bucket w' = bucket w.
Proof.
  intros Hwf. induction l as [|ci l (w1 & Hrun & Hb)]; [by eexists|].
  cbn [foldr].
  destruct (put_item_to_key config P (ctx_partition_key ci) (ctx_sort_key ci)
              w1 Hwf) as (w2 & Hput & Hb2).
  exists w2. split; [|congruence].
  erewrite SE_bind_Ok; [|exact Hrun]. exact Hput.
Qed.

(** [store] returns the pointer it generated and leaves the ciphertext in
    the bucket, under the storage key of the pointer. *)
Lemma store_Ok config P (uuid : UUID) data (context : dict) c
    (w : world (ciphertext P)) :
  config_wf config →
  (partition_key_name config ∉ dom context) →
  (sort_key_name config ∉ dom context) →
  encrypt P data context = Ok c →
  ∃ w',
    store config P uuid data context w
    = (Ok {| partition_key := str_of_UUID uuid;
             sort_key := sort_key_config config;
             context := context |}, w')
    ∧ bucket w' !! str_of_UUID uuid = Some (c, context).
Proof.
  intros Hwf H1 H2 Henc.
  set (p := {| partition_key := str_of_UUID uuid;
               sort_key := sort_key_config config;
               context := context |}).
  assert (Hput : ∃ w1, _write_pointer config P p w = (Ok (), w1)).
  { unfold _write_pointer, put_item.
    rewrite (to_item_lookup_partition_key config p Hwf H1).
    rewrite (to_item_lookup_sort_key config p H2). by eexists. }
  destruct Hput as [w1 Hput].
  set (w2 := {| bucket := <[str_of_UUID uuid := (c, context)]> (bucket w1);
                table := table w1 |}).
  destruct (populate_loop config P
              (elements (set_map (C:=gset string) (D:=gset ContextItem)
                 (λ k, {| ctx_partition_key := canonicalize config k;
                          ctx_sort_key := get_s3_key p |})
                 (dom context))) w2 Hwf) as (w3 & Hloop & Hb).
  exists w3. split.
  - unfold store.
    erewrite SE_bind_Ok; [|unfold lift; by rewrite Henc].
    erewrite SE_bind_Ok; [|unfold lift; by rewrite generate_Ok].
    fold p.
    erewrite SE_bind_Ok; [|exact Hput].
    erewrite SE_bind_Ok; [|reflexivity].
    fold w2.
    erewrite SE_bind_Ok; [reflexivity|].
    unfold _populate_key_records.
    erewrite SE_bind_Ok; cycle 1.
    { unfold lift. by rewrite (context_items_Ok config p uuid). }
    erewrite SE_bind_Ok; [reflexivity|exact Hloop].
  - rewrite Hb. apply lookup_insert_eq.
Qed.

Lemma sample_config_wf : config_wf sample_config.
Proof. discriminate. Qed.

Lemma no_reserved_fleet (v : string) :
  (partition_key_name sample_config ∉ dom ({[ "fleet" := v ]} : dict))
  ∧ (sort_key_name sample_config ∉ dom ({[ "fleet" := v ]} : dict)).
Proof.
  rewrite dom_singleton_L, !not_elem_of_singleton. split; discriminate.
Qed.

Lemma no_reserved_empty config :
  (partition_key_name config ∉ dom (∅ : dict))
  ∧ (sort_key_name config ∉ dom (∅ : dict)).
Proof. rewrite dom_empty_L. split; apply not_elem_of_empty. Qed.

(** C1, on the code. After [store({}, {"fleet": "x"})], the call
    [retrieve(key, expected_context_keys={"fleet"})] does not return: its
    first assertion tests the set for membership in the keys of the recovered
    context, which raises [TypeError]. *)
Theorem scenario_A_retrieve_raises :
  let tags : dict := {[ "fleet" := "x" ]} in
  ∃ p w,
    store sample_config envelope_provider 5%Z [] tags
      (empty_world envelope_provider) = (Ok p, w)
    ∧ context p = tags
    ∧ ({[ "fleet" ]} : gset string) ⊆ dom tags
    ∧ retrieve sample_config envelope_provider 7%Z (partition_key p)
        {[ "fleet" ]} ∅ w
      = (Raise TypeError, w).
Proof.
  intros tags.
  destruct (no_reserved_fleet "x") as [H1 H2].
  destruct (store_Ok sample_config envelope_provider 5%Z [] tags
              ([], tags) (empty_world envelope_provider)
              sample_config_wf H1 H2 eq_refl) as (w & Hstore & Hobj).
  eexists _, w. split; [exact Hstore|]. split; [reflexivity|]. split.
  - unfold tags. by rewrite dom_singleton_L.
  - destruct (no_reserved_empty sample_config) as [H3 H4].
    by apply (retrieve_raises_TypeError sample_config envelope_provider
                7%Z 5%Z {[ "fleet" ]} ∅ w ([], tags) tags [] tags).
Qed.

(** C2, on the code. Against a document tagged ["fleet": "x"], the call
    [retrieve(key, expected_context={"fleet": "y"})] raises [TypeError] at
    the first assertion, on the default set of expected keys, and not the
    [AssertionError] of a context mismatch. *)
Theorem scenario_B_retrieve_raises_TypeError :
  let stored : dict := {[ "fleet" := "x" ]} in
  let expected : dict := {[ "fleet" := "y" ]} in
  ∃ p w,
    store sample_config envelope_provider 5%Z [] stored
      (empty_world envelope_provider) = (Ok p, w)
    ∧ retrieve sample_config envelope_provider 7%Z (partition_key p)
        ∅ expected w
      = (Raise TypeError, w)
    ∧ (Raise TypeError : result DocumentBundle) ≠ Raise AssertionError.
Proof.
  intros stored expected.
  destruct (no_reserved_fleet "x") as [H1 H2].
  destruct (store_Ok sample_config envelope_provider 5%Z [] stored
              ([], stored) (empty_world envelope_provider)
              sample_config_wf H1 H2 eq_refl) as (w & Hstore & Hobj).
  eexists _, w. split; [exact Hstore|]. split; [|discriminate].
  destruct (no_reserved_fleet "y") as [H3 H4].
  by apply (retrieve_raises_TypeError sample_config envelope_provider
              7%Z 5%Z ∅ expected w ([], stored) stored [] stored).
Qed.

(** * Further properties of the model *)

(** ** Equality *)

Lemma item_eq_true x y :
  __eq__ x y = true ↔
  class_of x = class_of y
  ∧ item_partition_key x = item_partition_key y
  ∧ item_sort_key x = item_sort_key y.
Proof.
  unfold __eq__. case_bool_decide as Hc.
  - rewrite andb_true_iff, !bool_decide_eq_true. split.
    + intros [H1 H2]. by rewrite H1, H2.
    + intros (_ & H1 & H2). by rewrite H1, H2.
  - split; [discriminate|]. by intros [? _].
Qed.

(** X1. [__eq__] is an equivalence on the records of the hierarchy, and two
    records that are equal have the same hash, as sets and dictionaries of
    records need. *)
Theorem eq_equivalence_and_hash (hash : key_value * key_value → Z) :
  (∀ x, __eq__ x x = true)
  ∧ (∀ x y, __eq__ x y = __eq__ y x)
  ∧ (∀ x y z, __eq__ x y = true → __eq__ y z = true → __eq__ x z = true)
  ∧ (∀ x y, __eq__ x y = true → __hash__ hash x = __hash__ hash y).
Proof.
  split; [|split; [|split]].
  - intros x. by apply item_eq_true.
  - intros x y. apply eq_true_iff_eq. rewrite !item_eq_true.
    split; intros (H1 & H2 & H3); by rewrite H1, H2, H3.
  - intros x y z. rewrite !item_eq_true.
    intros (H1 & H2 & H3) (H4 & H5 & H6).
    by rewrite H1, H2, H3, H4, H5, H6.
  - intros x y Heq. apply item_eq_true in Heq as (_ & Hpk & Hsk).
    unfold __hash__. by rewrite Hpk, Hsk.
Qed.

Lemma eq_equivalence_and_hash_witness :
  let p := {| partition_key := "00000000-0000-0000-0000-000000000005";
              sort_key := "S3DOC"; context := ∅ |} in
  let q := {| partition_key := "00000000-0000-0000-0000-000000000005";
              sort_key := "S3DOC"; context := {[ "fleet" := "x" ]} |} in
  __hash__ (λ _, 0%Z) (Pointer p) = __hash__ (λ _, 0%Z) (Pointer q).
Proof.
  intros p q.
  apply (proj2 (proj2 (proj2 (eq_equivalence_and_hash (λ _, 0%Z))))).
  reflexivity.
Defined.

(** ** Canonical context keys *)

Lemma canonicalize_fixed config s :
  canonicalize config (canonicalize config s) = canonicalize config s.
Proof.
  unfold canonicalize at 1.
  rewrite upper_canonicalize.
  by rewrite canonicalize_is_context_key_fmt.
Qed.

Lemma upper_fixed_prefix p s :
  upper (p +:+ s) = p +:+ s → upper s = s.
Proof.
  rewrite upper_app. induction p as [|c p IH]; simpl; [done|].
  intros [= _ H]. by apply IH.
Qed.

(** X2. The canonical context keys are the upper-case strings that start
    with the prefix: [canonicalize] leaves exactly those as they are. It
    reads its argument through [upper] only, so tags that differ in case
    have one canonical key. *)
Theorem canonical_keys (config : Config) (s t : string) :
  (canonicalize config s = s ↔
   upper s = s ∧ is_context_key_fmt config s = true)
  ∧ (upper s = upper t → canonicalize config s = canonicalize config t)
  ∧ canonicalize config (upper s) = canonicalize config s
  ∧ upper (canonicalize config s) = canonicalize config s.
Proof.
  split; [|split; [|split]].
  - split.
    + intros H. split.
      * rewrite <- H at 1 2. apply upper_canonicalize.
      * rewrite <- H. apply canonicalize_is_context_key_fmt.
    + intros [Hu Hf]. unfold canonicalize. by rewrite Hu, Hf.
  - intros H. unfold canonicalize. by rewrite H.
  - unfold canonicalize. by rewrite upper_idem.
  - apply upper_canonicalize.
Qed.

Lemma canonical_keys_witness :
  canonicalize sample_config "toTalLy_pUbl1c_7ag"
  = canonicalize sample_config "TOTALLY_publ1c_7AG".
Proof.
  refine (proj1 (proj2 (canonical_keys sample_config "toTalLy_pUbl1c_7ag"
                          "TOTALLY_publ1c_7AG")) _).
  reflexivity.
Defined.

(** ** The constructor of pointers *)

(** X3. The constructor of [PointerItem] returns a pointer exactly when the
    partition key is set and, if a string, parses as a UUID, the context has
    no reserved name and the sort key is the object marker; the pointer then
    has a canonical UUID string as partition key, the object marker as sort
    key and the context it was given. *)
Theorem PointerItem_init_succeeds_iff (config : Config) (pk sk : key_value)
    (ctx : dict) :
  ((∃ p, PointerItem_init config pk sk ctx = Ok p) ↔
   pk ≠ KNone
   ∧ (∀ s, pk = KStr s → ∃ u, UUID_of_str s = Ok u)
   ∧ (partition_key_name config ∉ dom ctx)
   ∧ (sort_key_name config ∉ dom ctx)
   ∧ sk = KStr (sort_key_config config))
  ∧ (∀ p, PointerItem_init config pk sk ctx = Ok p →
       is_canonical_uuid (partition_key p) = true
       ∧ sort_key p = sort_key_config config
       ∧ context p = ctx).
Proof.
  split; [split|].
  - intros [p Hp].
    pose proof Hp as Hinv.
    apply PointerItem_init_inv in Hinv
      as ((u & _ & Hs & _) & _ & _ & Hsk & H1 & H2).
    repeat split; try done.
    + intros ->. discriminate Hp.
    + intros s ->. exists u. by apply Hs.
  - intros (Hpk & Hparse & H1 & H2 & ->).
    destruct pk as [|s|v]; [done| |].
    + destruct (Hparse s eq_refl) as [u Hu]. eexists.
      by apply (from_key_and_context_Ok config s u ctx).
    + eexists. by apply (generate_Ok config v ctx).
  - intros p Hp.
    apply PointerItem_init_inv in Hp as ((u & -> & _) & ? & ? & _).
    split; [apply is_canonical_str_of_UUID|done].
Qed.

Lemma PointerItem_init_succeeds_iff_witness :
  ∃ p, PointerItem_init sample_config
         (KStr "urn:uuid:00000000-0000-0000-0000-000000000005")
         (KStr "S3DOC") ∅ = Ok p.
Proof.
  apply (proj1 (PointerItem_init_succeeds_iff sample_config
                  (KStr "urn:uuid:00000000-0000-0000-0000-000000000005")
                  (KStr "S3DOC") ∅)).
  split; [discriminate|]. split.
  - intros s [= <-]. exists 5%Z. by vm_compute.
  - destruct (no_reserved_empty sample_config) as [H1 H2]. by repeat split.
Defined.

(** X4. With keys that are set, a partition key that parses and a context
    without reserved names, a sort key other than the object marker makes
    the constructor raise the sort-key error. *)
Theorem PointerItem_init_invalid_sort_key (config : Config)
    (pk sk : key_value) (ctx : dict) :
  pk ≠ KNone → sk ≠ KNone →
  (∀ s, pk = KStr s → ∃ u, UUID_of_str s = Ok u) →
  (partition_key_name config ∉ dom ctx) →
  (sort_key_name config ∉ dom ctx) →
  sk ≠ KStr (sort_key_config config) →
  PointerItem_init config pk sk ctx
  = Raise (DataModelException InvalidSortKey).
Proof.
  intros Hpk Hsk Hparse H1 H2 Hmark.
  unfold PointerItem_init, _assert_set.
  rewrite (bool_decide_eq_false_2 (pk = KNone)) by done.
  rewrite (bool_decide_eq_false_2 (sk = KNone)) by done.
  rewrite bind_Ok.
  assert (∃ pk', (match pk with
                  | KStr s => u ← UUID_of_str s; Ok (KStr (str_of_UUID u))
                  | _ => Ok pk
                  end) = Ok pk') as [pk' ->].
  { destruct pk as [|s|v]; [done| |by eexists].
    destruct (Hparse s eq_refl) as [u ->]. by eexists. }
  rewrite bind_Ok, _validate_reserved_ec_keys_Ok, bind_Ok by done.
  by rewrite bool_decide_eq_true_2.
Qed.

Lemma PointerItem_init_invalid_sort_key_witness :
  PointerItem_init sample_config (KUUID 5%Z) (KStr "sort_key") ∅
  = Raise (DataModelException InvalidSortKey).
Proof.
  apply PointerItem_init_invalid_sort_key;
    first [ discriminate | apply (no_reserved_empty sample_config) ].
Defined.

(** X5. Building a pointer again from the storage key and the context of a
    pointer the constructor returned gives the same pointer: the storage key
    parses as a UUID and is printed back as it is. *)
Theorem pointer_rebuilt_from_key (config : Config) (pk sk : key_value)
    (ctx : dict) (p : PointerItem) :
  PointerItem_init config pk sk ctx = Ok p →
  from_key_and_context config (get_s3_key p) (context p) = Ok p
  ∧ ∃ u, UUID_of_str (get_s3_key p) = Ok u ∧ str_of_UUID u = get_s3_key p.
Proof.
  intros Hp.
  apply PointerItem_init_inv in Hp as ((u & Hpk & _) & Hsk & Hctx & _ & H1 & H2).
  unfold get_s3_key. rewrite Hpk. split.
  - rewrite Hctx, from_key_and_context_printed by done.
    destruct p; simpl in *. by subst.
  - exists (u mod 2 ^ 128)%Z.
    by rewrite UUID_of_str_str_of_UUID, str_of_UUID_mod.
Qed.

Lemma pointer_rebuilt_from_key_witness :
  ∃ p, generate sample_config 5%Z {[ "fleet" := "x" ]} = Ok p
       ∧ from_key_and_context sample_config (get_s3_key p) (context p) = Ok p.
Proof.
  destruct (no_reserved_fleet "x") as [H1 H2].
  eexists. split; [by apply generate_Ok|].
  eapply (proj1 (pointer_rebuilt_from_key sample_config (KUUID 5%Z)
                   (KStr "S3DOC") {[ "fleet" := "x" ]} _ _)).
  Unshelve. by apply (generate_Ok sample_config 5%Z).
Defined.

(** ** The constructor of context items *)

Lemma ContextItem_init_str config k s :
  ContextItem_init config (KStr k) (KStr s)
  = (u ← UUID_of_str s;
     Ok {| ctx_partition_key := canonicalize config k;
           ctx_sort_key := str_of_UUID u |}).
Proof.
  unfold ContextItem_init, _assert_set.
  rewrite !bool_decide_eq_false_2 by done.
  rewrite !bind_Ok.
  destruct (UUID_of_str s) as [u|e].
  - by rewrite !bind_Ok.
  - by rewrite !bind_Raise.
Qed.

(** X6. On two strings, the constructor of [ContextItem] returns an item
    exactly when the sort key parses as a UUID, and raises [ValueError]
    otherwise.  The item has a partition key in the format of context keys
    and a canonical UUID string as sort key, and building an item from its
    two keys gives it back. *)
Theorem ContextItem_init_normalises (config : Config) (k s : string) :
  ((∃ ci, ContextItem_init config (KStr k) (KStr s) = Ok ci) ↔
   ∃ u, UUID_of_str s = Ok u)
  ∧ ((∀ u, UUID_of_str s ≠ Ok u) →
     ContextItem_init config (KStr k) (KStr s) = Raise ValueError)
  ∧ (∀ ci, ContextItem_init config (KStr k) (KStr s) = Ok ci →
       is_context_key_fmt config (ctx_partition_key ci) = true
       ∧ is_canonical_uuid (ctx_sort_key ci) = true
       ∧ ContextItem_init config (KStr (ctx_partition_key ci))
           (KStr (ctx_sort_key ci)) = Ok ci).
Proof.
  rewrite ContextItem_init_str.
  destruct (UUID_of_str_cases s) as [[u Hu]|Hu]; rewrite Hu.
  - rewrite bind_Ok. split; [|split].
    + split; intros _; by eexists.
    + intros H. by destruct (H u).
    + intros ci [= <-]. cbn [ctx_partition_key ctx_sort_key].
      split; [apply canonicalize_is_context_key_fmt|].
      split; [apply is_canonical_str_of_UUID|].
      by rewrite ContextItem_init_Ok, canonicalize_fixed.
  - rewrite bind_Raise. split; [|split].
    + split; [by intros [? ?]|by intros [? ?]].
    + done.
    + by intros ci.
Qed.

Lemma ContextItem_init_normalises_witness :
  ContextItem_init sample_config (KStr "baz") (KStr "sort_key")
  = Raise ValueError.
Proof.
  refine (proj1 (proj2 (ContextItem_init_normalises sample_config "baz"
                          "sort_key")) _).
  intros u. by vm_compute.
Defined.

(** ** The flattened pointer *)

(** X7. The row [to_item] builds for a pointer the constructor returned has
    the partition key and the sort key of the pointer under the two reserved
    names, and under every other name what the context has there: the tags
    are kept, none hides a key, and there is no other field. *)
Theorem to_item_fields (config : Config) (pk sk : key_value) (ctx : dict)
    (p : PointerItem) :
  config_wf config →
  PointerItem_init config pk sk ctx = Ok p →
  to_item config p !! partition_key_name config = Some (partition_key p)
  ∧ to_item config p !! sort_key_name config = Some (sort_key p)
  ∧ (∀ k, k ≠ partition_key_name config → k ≠ sort_key_name config →
          to_item config p !! k = context p !! k)
  ∧ context p ⊆ to_item config p
  ∧ dom (to_item config p)
    = dom (context p) ∪ {[ partition_key_name config; sort_key_name config ]}.
Proof.
  intros Hwf Hp.
  apply PointerItem_init_inv in Hp as (_ & _ & Hctx & _ & H1 & H2).
  rewrite <- Hctx in H1, H2.
  split; [by apply to_item_lookup_partition_key|].
  split; [by apply to_item_lookup_sort_key|].
  split; [|split].
  - intros k Hk1 Hk2. unfold to_item, to_key.
    destruct (context p !! k) as [v|] eqn:E.
    + by erewrite lookup_union_Some_l.
    + rewrite lookup_union_r by done. by rewrite !lookup_insert_ne.
  - unfold to_item. apply map_union_subseteq_l.
  - unfold to_item, to_key.
    rewrite dom_union_L, !dom_insert_L, dom_empty_L.
    apply set_eq. intros k.
    rewrite !elem_of_union, !elem_of_singleton, elem_of_empty. tauto.
Qed.

Lemma to_item_fields_witness :
  let p := {| partition_key := "00000000-0000-0000-0000-000000000005";
              sort_key := "S3DOC"; context := {[ "fleet" := "x" ]} |} in
  to_item sample_config p !! "reference"
  = Some "00000000-0000-0000-0000-000000000005".
Proof.
  intros p.
  refine (proj1 (to_item_fields sample_config (KUUID 5%Z) (KStr "S3DOC")
                   {[ "fleet" := "x" ]} p sample_config_wf _)).
  by vm_compute.
Defined.

(** ** Failures of context extraction *)

(** X8. [context_from_item] on [None] raises the empty-record error; on a
    record without the partition-key field it raises [KeyError] and leaves
    the record as it is; on a record with that field and without the
    sort-key field it raises [KeyError] after the partition-key field has
    been deleted, so the record of the caller is left changed. *)
Theorem context_from_item_failures (config : Config) (h : heap) (l : loc)
    (d : dict) :
  context_from_item config None h
  = (Raise (DataModelException EmptyRecord), h)
  ∧ (h !! l = Some d → (partition_key_name config ∉ dom d) →
     context_from_item config (Some l) h = (Raise KeyError, h))
  ∧ (h !! l = Some d → partition_key_name config ∈ dom d →
     (sort_key_name config ∉ dom (delete (partition_key_name config) d)) →
     context_from_item config (Some l) h
     = (Raise KeyError, <[l := delete (partition_key_name config) d]> h)).
Proof.
  split; [reflexivity|]. split.
  - intros Hl Hpk%not_elem_of_dom.
    unfold context_from_item, mbind, SE_bind, py_del. by rewrite Hl, Hpk.
  - intros Hl Hpk Hsk%not_elem_of_dom.
    apply elem_of_dom in Hpk as [v Hpk].
    unfold context_from_item, mbind, SE_bind, py_del.
    by rewrite Hl, Hpk, lookup_insert_eq, Hsk.
Qed.

Lemma context_from_item_failures_witness :
  let d : dict := {[ "reference" := "00000000-0000-0000-0000-000000000005";
                    "fleet" := "x" ]} in
  context_from_item sample_config (Some 1%positive) {[ 1%positive := d ]}
  = (Raise KeyError,
     <[ 1%positive := delete "reference" d ]> {[ 1%positive := d ]}).
Proof.
  intros d.
  refine (proj2 (proj2 (context_from_item_failures sample_config
                          {[ 1%positive := d ]} 1%positive d)) _ _ _).
  - reflexivity.
  - apply elem_of_dom. by eexists.
  - apply not_elem_of_dom. reflexivity.
Defined.

(** ** Queries *)

Lemma to_key_lookup_partition_key config pk sk :
  config_wf config →
  to_key config pk sk !! partition_key_name config = Some pk.
Proof.
  intros Hwf. unfold to_key.
  rewrite lookup_insert_ne by (intros E; by apply Hwf).
  apply lookup_insert_eq.
Qed.

Lemma to_key_lookup_sort_key config pk sk :
  to_key config pk sk !! sort_key_name config = Some sk.
Proof. unfold to_key. apply lookup_insert_eq. Qed.

(** X9. The condition of the [ContextQuery] for a tag holds on the index row
    of a context item exactly when the partition key of the item is the
    canonical form of the tag.  So for a tag [k] of a pointer, the query for
    any spelling [t] of [k] in another case, or for the canonical key of [k],
    holds on the row of an index record that [context_items] derives for the
    pointer. *)
Theorem query_matches_index_rows (config : Config) (pk sk : key_value)
    (ctx : dict) (p : PointerItem) (k t : string) :
  config_wf config →
  PointerItem_init config pk sk ctx = Ok p →
  k ∈ dom (context p) →
  (∀ c s, condition_holds (expression config (ContextQuery_init config t))
            (to_key config c s)
          = bool_decide (c = canonicalize config t))
  ∧ (upper t = upper k ∨ t = canonicalize config k →
     ∃ S ci,
       context_items config p = Ok S ∧ ci ∈ S
       ∧ ctx_sort_key ci = get_s3_key p
       ∧ condition_holds (expression config (ContextQuery_init config t))
           (to_key config (ctx_partition_key ci) (ctx_sort_key ci)) = true).
Proof.
  intros Hwf Hp Hk.
  assert (Hrow : ∀ c s,
            condition_holds (expression config (ContextQuery_init config t))
              (to_key config c s)
            = bool_decide (c = canonicalize config t)).
  { intros c s. unfold condition_holds, expression, ContextQuery_init.
    cbn [condition_name condition_value query_partition_key].
    rewrite to_key_lookup_partition_key by done.
    apply bool_decide_ext. split; [by intros [= ->]|by intros ->]. }
  split; [exact Hrow|].
  intros Ht.
  apply PointerItem_init_inv in Hp as ((u & Hu & _) & _).
  eexists _, {| ctx_partition_key := canonicalize config k;
                ctx_sort_key := get_s3_key p |}.
  split; [exact (context_items_Ok config p u Hu)|].
  split; [apply elem_of_map; by exists k|].
  split; [reflexivity|].
  rewrite Hrow. apply bool_decide_eq_true_2.
  cbn [ctx_partition_key].
  destruct Ht as [Ht| ->].
  - unfold canonicalize. by rewrite Ht.
  - by rewrite canonicalize_fixed.
Qed.

Lemma query_matches_index_rows_witness :
  let p := {| partition_key := "00000000-0000-0000-0000-000000000005";
              sort_key := "S3DOC"; context := {[ "fleet" := "x" ]} |} in
  ∃ S ci,
    context_items sample_config p = Ok S ∧ ci ∈ S
    ∧ ctx_sort_key ci = get_s3_key p
    ∧ condition_holds (expression sample_config
                         (ContextQuery_init sample_config "Fleet"))
        (to_key sample_config (ctx_partition_key ci) (ctx_sort_key ci)) = true.
Proof.
  intros p.
  refine (proj2 (query_matches_index_rows sample_config (KUUID 5%Z)
                   (KStr "S3DOC") {[ "fleet" := "x" ]} p "fleet" "Fleet"
                   sample_config_wf _ _) _).
  - by vm_compute.
  - apply elem_of_dom. by eexists.
  - left. reflexivity.
Defined.

(** X10. The condition of [filter_for] holds on the row of every pointer the
    constructor returned; when the object marker is not itself a canonical
    UUID string, it holds on the row of no context item. *)
Theorem filter_for_selects_pointer_rows (config : Config)
    (pk sk : key_value) (ctx : dict) (p : PointerItem) :
  PointerItem_init config pk sk ctx = Ok p →
  condition_holds (filter_for config) (to_item config p) = true
  ∧ (is_canonical_uuid (sort_key_config config) = false →
     ∀ k s ci, ContextItem_init config (KStr k) (KStr s) = Ok ci →
       condition_holds (filter_for config)
         (to_key config (ctx_partition_key ci) (ctx_sort_key ci)) = false).
Proof.
  intros Hp.
  apply PointerItem_init_inv in Hp as (_ & Hsk & Hctx & _ & _ & H2).
  rewrite <- Hctx in H2.
  unfold condition_holds, filter_for.
  cbn [condition_name condition_value]. split.
  - rewrite to_item_lookup_sort_key by done.
    apply bool_decide_eq_true_2. by rewrite Hsk.
  - intros Hmark k s ci Hci.
    rewrite ContextItem_init_str in Hci.
    destruct (UUID_of_str s) as [u|e]; [|by rewrite bind_Raise in Hci].
    rewrite bind_Ok in Hci. injection Hci as <-.
    cbn [ctx_partition_key ctx_sort_key].
    rewrite to_key_lookup_sort_key.
    apply bool_decide_eq_false_2. intros [= E].
    rewrite <- E, is_canonical_str_of_UUID in Hmark. discriminate.
Qed.

Lemma filter_for_selects_pointer_rows_witness :
  condition_holds (filter_for sample_config)
    (to_item sample_config
       {| partition_key := "00000000-0000-0000-0000-000000000005";
          sort_key := "S3DOC"; context := {[ "fleet" := "x" ]} |}) = true.
Proof.
  refine (proj1 (filter_for_selects_pointer_rows sample_config (KUUID 5%Z)
                   (KStr "S3DOC") {[ "fleet" := "x" ]} _ _)).
  by vm_compute.
Defined.

(** ** The outcomes of [retrieve] *)

Lemma from_key_and_context_str config key (ctx : dict) :
  from_key_and_context config key ctx
  = (u ← UUID_of_str key;
     _validate_reserved_ec_keys config ctx;;
     Ok {| partition_key := str_of_UUID u;
           sort_key := sort_key_config config;
           context := ctx |}).
Proof.
  unfold from_key_and_context, PointerItem_init, _assert_set.
  rewrite (bool_decide_eq_false_2 (KStr key = KNone)) by done.
  rewrite (bool_decide_eq_false_2 (KStr (sort_key_config config) = KNone))
    by done.
  rewrite bind_Ok.
  destruct (UUID_of_str key) as [u|e]; [|by rewrite !bind_Raise].
  rewrite !bind_Ok.
  destruct (_validate_reserved_ec_keys config ctx) as [[]|e];
    [|by rewrite !bind_Raise].
  rewrite !bind_Ok.
  by rewrite bool_decide_eq_false_2 by (intros H; by apply H).
Qed.

(** X11. [retrieve] never changes the stores and never returns a bundle.
    It raises [ValueError] on a key that does not parse, the reserved-key
    error on an expected context with a reserved name, the not-found error
    when the bucket has no object under the canonical form of the key, what
    the provider raises when decryption fails, and [TypeError] in every
    other case. *)
Theorem retrieve_outcomes (config : Config) (P : provider) (uuid : UUID)
    (pointer_key : string) (expected_context_keys : gset string)
    (expected_context : dict) (w : world (ciphertext P)) :
  let run := retrieve config P uuid pointer_key expected_context_keys
               expected_context w in
  run.2 = w
  ∧ (∀ b, run.1 ≠ Ok b)
  ∧ ((∀ u, UUID_of_str pointer_key ≠ Ok u) → run.1 = Raise ValueError)
  ∧ (∀ u, UUID_of_str pointer_key = Ok u →
       (partition_key_name config ∈ dom expected_context
        ∨ sort_key_name config ∈ dom expected_context →
        run.1 = Raise (DataModelException ReservedKeyCollision))
       ∧ ((partition_key_name config ∉ dom expected_context) →
          (sort_key_name config ∉ dom expected_context) →
          (bucket w !! str_of_UUID u = None → run.1 = Raise ObjectNotFound)
          ∧ (∀ body md, bucket w !! str_of_UUID u = Some (body, md) →
               (∀ e, decrypt P body = Raise e → run.1 = Raise e)
               ∧ (∀ plaintext ec, decrypt P body = Ok (plaintext, ec) →
                    run.1 = Raise TypeError)))).
Proof.
  intros run. subst run. split; [|split; [|split]].
  - unfold retrieve, mbind, SE_bind, lift, _get_object.
    destruct (from_key_and_context _ _ _) as [item|]; [|done].
    destruct (bucket w !! get_s3_key item) as [[body md]|]; [|done].
    destruct (decrypt P body) as [[plaintext ec]|]; [|done].
    by rewrite in_dict_keys_set.
  - intros b Hb.
    destruct (retrieve config P uuid pointer_key expected_context_keys
                expected_context w) as [r w'] eqn:E.
    simpl in Hb. subst r.
    by apply retrieve_never_returns in E.
  - intros Hparse. unfold retrieve.
    erewrite SE_bind_Raise; [reflexivity|].
    unfold lift. rewrite from_key_and_context_str.
    destruct (UUID_of_str_cases pointer_key) as [[u Hu]|Hu].
    + by destruct (Hparse u).
    + by rewrite Hu, bind_Raise.
  - intros u Hu. split.
    + intros Hres. unfold retrieve.
      erewrite SE_bind_Raise; [reflexivity|].
      unfold lift. rewrite from_key_and_context_str, Hu, bind_Ok.
      by rewrite _validate_reserved_ec_keys_Raise, bind_Raise.
    + intros H1 H2.
      assert (Hitem :
        lift (S:=world (ciphertext P))
          (from_key_and_context config pointer_key expected_context) w
        = (Ok {| partition_key := str_of_UUID u;
                 sort_key := sort_key_config config;
                 context := expected_context |}, w)).
      { unfold lift. by rewrite (from_key_and_context_Ok config _ u). }
      split.
      * intros Hnone. unfold retrieve.
        erewrite SE_bind_Ok; [|exact Hitem].
        erewrite SE_bind_Raise; [reflexivity|].
        unfold _get_object, get_s3_key. cbn [partition_key].
        by rewrite Hnone.
      * intros body md Hobj.
        assert (Hget : _get_object P
                  {| partition_key := str_of_UUID u;
                     sort_key := sort_key_config config;
                     context := expected_context |} w = (Ok body, w)).
        { unfold _get_object, get_s3_key. cbn [partition_key].
          by rewrite Hobj. }
        split.
        -- intros e He. unfold retrieve.
           erewrite SE_bind_Ok; [|exact Hitem].
           erewrite SE_bind_Ok; [|exact Hget].
           erewrite SE_bind_Raise; [reflexivity|].
           unfold lift. by rewrite He.
        -- intros plaintext ec Hdec. unfold retrieve.
           erewrite SE_bind_Ok; [|exact Hitem].
           erewrite SE_bind_Ok; [|exact Hget].
           erewrite SE_bind_Ok; [|unfold lift; by rewrite Hdec].
           cbv beta iota.
           erewrite SE_bind_Raise; [reflexivity|].
           unfold lift. by rewrite in_dict_keys_set.
Qed.

Lemma retrieve_outcomes_witness :
  (retrieve sample_config envelope_provider 7%Z "garbage" ∅ ∅
     (empty_world envelope_provider)).1 = Raise ValueError
  ∧ (retrieve sample_config envelope_provider 7%Z
       "{00000000000000000000000000000005}" ∅ ∅
       (empty_world envelope_provider)).1 = Raise ObjectNotFound.
Proof.
  split.
  - refine (proj1 (proj2 (proj2 (retrieve_outcomes sample_config
              envelope_provider 7%Z "garbage" ∅ ∅
              (empty_world envelope_provider)))) _).
    intros u. by vm_compute.
  - refine (proj1 (proj2 (proj2 (proj2 (proj2 (retrieve_outcomes sample_config
              envelope_provider 7%Z "{00000000000000000000000000000005}" ∅ ∅
              (empty_world envelope_provider)))) 5%Z _)
              (proj1 (no_reserved_empty sample_config))
              (proj2 (no_reserved_empty sample_config))) _).
    + by vm_compute.
    + reflexivity.
Defined.

(** ** What [store] writes *)

Lemma put_item_to_key_run config P pk sk (w : world (ciphertext P)) :
  config_wf config →
  put_item config P (to_key config pk sk) w
  = (Ok (), {| bucket := bucket w;
               table := <[(pk, sk) := to_key config pk sk]> (table w) |}).
Proof.
  intros Hwf. unfold put_item.
  by rewrite to_key_lookup_partition_key, to_key_lookup_sort_key.
Qed.

Lemma populate_loop_table config P (l : list ContextItem)
    (w : world (ciphertext P)) :
  config_wf config →
  ∃ w',
    foldr
      (λ context_item acc,
         acc;; put_item config P
                 (to_key config (ctx_partition_key context_item)
                    (ctx_sort_key context_item)))
      (mret ()) l w = (Ok (), w')
    ∧ bucket w' = bucket w
    ∧ (∀ ci, ci ∈ l →
         table w' !! (ctx_partition_key ci, ctx_sort_key ci)
         = Some (to_key config (ctx_partition_key ci) (ctx_sort_key ci)))
    ∧ (∀ key, (∀ ci, ci ∈ l →
                 key ≠ (ctx_partition_key ci, ctx_sort_key ci)) →
         table w' !! key = table w !! key).
Proof.
  intros Hwf.
  induction l as [|c l (w1 & Hrun & Hb & Hin & Hout)].
  { exists w. split; [reflexivity|]. split; [reflexivity|]. split.
    - intros ci Hci. by apply elem_of_nil in Hci.
    - done. }
  cbn [foldr].
  eexists. split.
  { erewrite SE_bind_Ok; [|exact Hrun]. by apply put_item_to_key_run. }
  cbn [bucket table]. split; [exact Hb|]. split.
  - intros ci Hci.
    destruct (decide ((ctx_partition_key c, ctx_sort_key c)
                      = (ctx_partition_key ci, ctx_sort_key ci))) as [E|E].
    + rewrite E. injection E as -> ->. apply lookup_insert_eq.
    + rewrite lookup_insert_ne by done.
      apply elem_of_cons in Hci as [->|Hci]; [done|]. by apply Hin.
  - intros key Hkey.
    rewrite lookup_insert_ne.
    + apply Hout. intros ci Hci. apply Hkey. by apply elem_of_cons; right.
    + intros E. apply (Hkey c); [by apply elem_of_cons; left|done].
Qed.

(** The run of [store] on a context without reserved names. *)
Lemma store_run config P (uuid : UUID) data (ctx : dict) c
    (w : world (ciphertext P)) :
  config_wf config →
  (partition_key_name config ∉ dom ctx) →
  (sort_key_name config ∉ dom ctx) →
  encrypt P data ctx = Ok c →
  is_context_key_fmt config (str_of_UUID uuid) = false →
  let p := {| partition_key := str_of_UUID uuid;
              sort_key := sort_key_config config;
              context := ctx |} in
  ∃ w',
    store config P uuid data ctx w = (Ok p, w')
    ∧ bucket w' = <[str_of_UUID uuid := (c, ctx)]> (bucket w)
    ∧ table w' !! (str_of_UUID uuid, sort_key_config config)
      = Some (to_item config p)
    ∧ (∀ k, k ∈ dom ctx →
         table w' !! (canonicalize config k, str_of_UUID uuid)
         = Some (to_key config (canonicalize config k) (str_of_UUID uuid)))
    ∧ (∀ key, key ≠ (str_of_UUID uuid, sort_key_config config) →
         (∀ k, k ∈ dom ctx →
            key ≠ (canonicalize config k, str_of_UUID uuid)) →
         table w' !! key = table w !! key).
Proof.
  intros Hwf H1 H2 Henc Hfmt p.
  set (w1 := {| bucket := bucket w;
                table := <[(str_of_UUID uuid, sort_key_config config)
                           := to_item config p]> (table w) |}).
  assert (Hput : _write_pointer config P p w = (Ok (), w1)).
  { unfold _write_pointer, put_item.
    rewrite (to_item_lookup_partition_key config p Hwf H1).
    by rewrite (to_item_lookup_sort_key config p H2). }
  set (w2 := {| bucket := <[str_of_UUID uuid := (c, ctx)]> (bucket w1);
                table := table w1 |}).
  set (S := set_map (C:=gset string) (D:=gset ContextItem)
              (λ k, {| ctx_partition_key := canonicalize config k;
                       ctx_sort_key := get_s3_key p |}) (dom ctx)).
  destruct (populate_loop_table config P (elements S) w2 Hwf)
    as (w3 & Hloop & Hb & Hin & Hout).
  assert (Hidx : ∀ ci, ci ∈ elements S ↔
            ∃ k, k ∈ dom ctx
                 ∧ ci = {| ctx_partition_key := canonicalize config k;
                           ctx_sort_key := str_of_UUID uuid |}).
  { intros ci. rewrite elem_of_elements. unfold S. rewrite elem_of_map.
    split; intros (k & ? & ?); by exists k. }
  exists w3. split; [|split; [|split; [|split]]].
  - unfold store.
    erewrite SE_bind_Ok; [|unfold lift; by rewrite Henc].
    erewrite SE_bind_Ok; [|unfold lift; by rewrite generate_Ok].
    fold p.
    erewrite SE_bind_Ok; [|exact Hput].
    erewrite SE_bind_Ok; [|reflexivity].
    fold w2.
    erewrite SE_bind_Ok; [reflexivity|].
    unfold _populate_key_records.
    erewrite SE_bind_Ok; cycle 1.
    { unfold lift. by rewrite (context_items_Ok config p uuid). }
    fold S.
    erewrite SE_bind_Ok; [reflexivity|exact Hloop].
  - by rewrite Hb.
  - rewrite Hout.
    + apply lookup_insert_eq.
    + intros ci (k & _ & ->)%Hidx [= E _].
      rewrite E, canonicalize_is_context_key_fmt in Hfmt. discriminate.
  - intros k Hk.
    apply (Hin {| ctx_partition_key := canonicalize config k;
                  ctx_sort_key := str_of_UUID uuid |}).
    apply Hidx. by exists k.
  - intros key Hkey1 Hkey2.
    rewrite Hout.
    + cbn [table w2 w1]. by rewrite lookup_insert_ne.
    + intros ci (k & Hk & ->)%Hidx. by apply Hkey2.
Qed.

(** X12. On a context without reserved names that the provider encrypts,
    and with a storage key that is not in the format of context keys,
    [store] returns the pointer generated for the context and leaves: the
    ciphertext in the bucket under the storage key, with the context as its
    metadata; the flattened pointer in the table under (storage key, object
    marker); one index row under (canonical tag, storage key) for every tag;
    and every other object and row as it was. *)
Theorem store_writes (config : Config) (P : provider) (uuid : UUID)
    (data : list Byte.byte) (ctx : dict) (c : ciphertext P)
    (w : world (ciphertext P)) :
  config_wf config →
  (partition_key_name config ∉ dom ctx) →
  (sort_key_name config ∉ dom ctx) →
  encrypt P data ctx = Ok c →
  is_context_key_fmt config (str_of_UUID uuid) = false →
  ∃ p w',
    store config P uuid data ctx w = (Ok p, w')
    ∧ get_s3_key p = str_of_UUID uuid
    ∧ context p = ctx
    ∧ bucket w' !! get_s3_key p = Some (c, ctx)
    ∧ (∀ k, k ≠ get_s3_key p → bucket w' !! k = bucket w !! k)
    ∧ table w' !! (get_s3_key p, sort_key_config config)
      = Some (to_item config p)
    ∧ (∀ k, k ∈ dom ctx →
         table w' !! (canonicalize config k, get_s3_key p)
         = Some (to_key config (canonicalize config k) (get_s3_key p)))
    ∧ (∀ key, key ≠ (get_s3_key p, sort_key_config config) →
         (∀ k, k ∈ dom ctx → key ≠ (canonicalize config k, get_s3_key p)) →
         table w' !! key = table w !! key).
Proof.
  intros Hwf H1 H2 Henc Hfmt.
  destruct (store_run config P uuid data ctx c w Hwf H1 H2 Henc Hfmt)
    as (w' & Hstore & Hb & Hptr & Hidx & Hframe).
  eexists _, w'. split; [exact Hstore|].
  unfold get_s3_key. cbn [partition_key context].
  repeat split; try done.
  - rewrite Hb. apply lookup_insert_eq.
  - intros k Hk. rewrite Hb. by rewrite lookup_insert_ne.
Qed.

Lemma store_writes_witness :
  ∃ p w',
    store sample_config envelope_provider 5%Z [] {[ "fleet" := "x" ]}
      (empty_world envelope_provider) = (Ok p, w')
    ∧ bucket w' !! get_s3_key p = Some (([], {[ "fleet" := "x" ]}) , {[ "fleet" := "x" ]})
    ∧ table w' !! ("S3EC-FLEET", get_s3_key p)
      = Some (to_key sample_config "S3EC-FLEET" (get_s3_key p)).
Proof.
  destruct (no_reserved_fleet "x") as [H1 H2].
  destruct (store_writes sample_config envelope_provider 5%Z []
              {[ "fleet" := "x" ]} ([], {[ "fleet" := "x" ]})
              (empty_world envelope_provider) sample_config_wf H1 H2
              eq_refl eq_refl)
    as (p & w' & Hstore & _ & _ & Hobj & _ & _ & Hidx & _).
  exists p, w'. split; [exact Hstore|]. split; [exact Hobj|].
  apply (Hidx "fleet"). apply elem_of_dom. by eexists.
Defined.

Lemma generate_reserved config (uuid : UUID) (ctx : dict) :
  partition_key_name config ∈ dom ctx ∨ sort_key_name config ∈ dom ctx →
  generate config uuid ctx = Raise (DataModelException ReservedKeyCollision).
Proof.
  intros Hres. unfold generate, PointerItem_init. simpl.
  by rewrite _validate_reserved_ec_keys_Raise.
Qed.

(** X13. With a configuration whose two reserved names differ, [store]
    fails only when the provider fails to encrypt, with the error of the
    provider, or when the context has a reserved name, with the reserved-key
    error; in both cases nothing has been written. *)
Theorem store_failure_writes_nothing (config : Config) (P : provider)
    (uuid : UUID) (data : list Byte.byte) (ctx : dict)
    (w w' : world (ciphertext P)) (e : exn) :
  config_wf config →
  store config P uuid data ctx w = (Raise e, w') →
  w' = w
  ∧ (encrypt P data ctx = Raise e
     ∨ ((∃ c, encrypt P data ctx = Ok c)
        ∧ (partition_key_name config ∈ dom ctx
           ∨ sort_key_name config ∈ dom ctx)
        ∧ e = DataModelException ReservedKeyCollision)).
Proof.
  intros Hwf Hstore.
  destruct (encrypt P data ctx) as [c|e'] eqn:Henc.
  - destruct (decide (partition_key_name config ∈ dom ctx)) as [H1|H1];
      [|destruct (decide (sort_key_name config ∈ dom ctx)) as [H2|H2]].
    3:{ destruct (store_Ok config P uuid data ctx c w Hwf H1 H2 Henc)
          as (w'' & Hok & _).
        rewrite Hok in Hstore. discriminate. }
    all: unfold store in Hstore;
      erewrite SE_bind_Ok in Hstore by (unfold lift; by rewrite Henc);
      erewrite SE_bind_Raise in Hstore
        by (unfold lift; rewrite generate_reserved by tauto; reflexivity);
      injection Hstore as <- <-; split; [done|right]; eauto.
  - unfold store in Hstore.
    erewrite SE_bind_Raise in Hstore by (unfold lift; by rewrite Henc).
    injection Hstore as <- <-. by split; [|left].
Qed.

Lemma store_failure_writes_nothing_witness :
  store sample_config envelope_provider 5%Z [] {[ "target" := "blammo" ]}
    (empty_world envelope_provider)
  = (Raise (DataModelException ReservedKeyCollision),
     empty_world envelope_provider)
  ∧ (encrypt envelope_provider [] {[ "target" := "blammo" ]}
     = Raise (DataModelException ReservedKeyCollision)
     ∨ ((∃ c, encrypt envelope_provider [] {[ "target" := "blammo" ]} = Ok c)
        ∧ (partition_key_name sample_config
             ∈ dom ({[ "target" := "blammo" ]} : dict)
           ∨ sort_key_name sample_config
               ∈ dom ({[ "target" := "blammo" ]} : dict))
        ∧ DataModelException ReservedKeyCollision
          = DataModelException ReservedKeyCollision)).
Proof.
  assert (H : store sample_config envelope_provider 5%Z []
                {[ "target" := "blammo" ]} (empty_world envelope_provider)
              = (Raise (DataModelException ReservedKeyCollision),
                 empty_world envelope_provider)) by (vm_compute; reflexivity).
  split; [exact H|].
  exact (proj2 (store_failure_writes_nothing sample_config envelope_provider
                  5%Z [] {[ "target" := "blammo" ]} _ _ _
                  sample_config_wf H)).
Defined.

(** ** Listing *)

Lemma PointerItem_init_bare config pkv :
  PointerItem_init config (KStr pkv) (KStr (sort_key_config config)) ∅
  = (u ← UUID_of_str pkv;
     Ok {| partition_key := str_of_UUID u;
           sort_key := sort_key_config config;
           context := ∅ |}).
Proof.
  change (PointerItem_init config (KStr pkv) (KStr (sort_key_config config)) ∅)
    with (from_key_and_context config pkv ∅).
  rewrite from_key_and_context_str.
  destruct (UUID_of_str pkv) as [u|e]; [|by rewrite !bind_Raise].
  rewrite !bind_Ok.
  destruct (no_reserved_empty config) as [H1 H2].
  by rewrite _validate_reserved_ec_keys_Ok, bind_Ok.
Qed.

Lemma elem_of_rows {K} `{Countable K} (m : gmap K dict) (row : dict) :
  row ∈ (map_to_list m).*2 ↔ ∃ key, m !! key = Some row.
Proof.
  rewrite list_elem_of_fmap. split.
  - intros ([key r] & -> & Hin). exists key. by apply elem_of_map_to_list.
  - intros [key Hkey]. exists (key, row). split; [done|].
    by apply elem_of_map_to_list.
Qed.

(** What the loop of [_scan_table] gives on a list of rows. *)
Lemma scan_loop_spec config (rows : list dict) (acc : gset PointerItem) :
  match _scan_table_loop config rows acc with
  | Ok found =>
      (∀ row, row ∈ rows →
         ∃ pkv, row !! partition_key_name config = Some pkv
                ∧ (is_context_key_fmt config pkv = true
                   ∨ ∃ u, UUID_of_str pkv = Ok u))
      ∧ (∀ x, x ∈ found ↔
           x ∈ acc
           ∨ ∃ row pkv u,
               row ∈ rows
               ∧ row !! partition_key_name config = Some pkv
               ∧ is_context_key_fmt config pkv = false
               ∧ UUID_of_str pkv = Ok u
               ∧ x = {| partition_key := str_of_UUID u;
                        sort_key := sort_key_config config;
                        context := ∅ |})
  | Raise e =>
      (e = KeyError ∨ e = ValueError)
      ∧ ∃ row, row ∈ rows
               ∧ (row !! partition_key_name config = None
                  ∨ ∃ pkv, row !! partition_key_name config = Some pkv
                           ∧ is_context_key_fmt config pkv = false
                           ∧ ∀ u, UUID_of_str pkv ≠ Ok u)
  end.
Proof.
  revert acc. induction rows as [|row rows IH]; intros acc.
  { cbn [_scan_table_loop]. split.
    - intros row Hrow. by apply elem_of_nil in Hrow.
    - intros x. split; [by left|].
      intros [Hx|(row & ? & ? & Hrow & _)]; [done|].
      by apply elem_of_nil in Hrow. }
  cbn [_scan_table_loop].
  destruct (row !! partition_key_name config) as [pkv|] eqn:Hpk.
  2:{ split; [by left|]. exists row. split; [apply elem_of_cons; by left|].
      by left. }
  destruct (is_context_key_fmt config pkv) eqn:Hfmt.
  { specialize (IH acc).
    destruct (_scan_table_loop config rows acc) as [found|e].
    - destruct IH as [Hgood Hmem]. split.
      + intros r Hr. apply elem_of_cons in Hr as [->|Hr]; [|by apply Hgood].
        exists pkv. split; [done|by left].
      + intros x. rewrite Hmem. split.
        * intros [Hx|(r & pk' & u & Hr & ?)]; [by left|right].
          exists r, pk', u. split; [apply elem_of_cons; by right|done].
        * intros [Hx|(r & pk' & u & Hr & Hrpk & Hrf & Hu & ->)]; [by left|].
          apply elem_of_cons in Hr as [->|Hr].
          -- rewrite Hpk in Hrpk. injection Hrpk as <-. congruence.
          -- right. by exists r, pk', u.
    - destruct IH as [He (r & Hr & Hbad)]. split; [done|].
      exists r. split; [apply elem_of_cons; by right|done]. }
  rewrite PointerItem_init_bare.
  destruct (UUID_of_str_cases pkv) as [[u Hu]|Hu]; rewrite Hu.
  2:{ rewrite bind_Raise. split; [by right|].
      exists row. split; [apply elem_of_cons; by left|].
      right. exists pkv. split; [done|]. split; [done|].
      intros u. by rewrite Hu. }
  rewrite !bind_Ok.
  specialize (IH ({[ {| partition_key := str_of_UUID u;
                        sort_key := sort_key_config config;
                        context := ∅ |} ]} ∪ acc)).
  destruct (_scan_table_loop config rows _) as [found|e].
  - destruct IH as [Hgood Hmem]. split.
    + intros r Hr. apply elem_of_cons in Hr as [->|Hr]; [|by apply Hgood].
      exists pkv. split; [done|right; by exists u].
    + intros x. rewrite Hmem, elem_of_union, elem_of_singleton. split.
      * intros [[->|Hx]|(r & pk' & u' & Hr & ?)].
        -- right. exists row, pkv, u. split; [apply elem_of_cons; by left|done].
        -- by left.
        -- right. exists r, pk', u'. split; [apply elem_of_cons; by right|done].
      * intros [Hx|(r & pk' & u' & Hr & Hrpk & Hrf & Hu' & ->)];
          [left; by right|].
        apply elem_of_cons in Hr as [->|Hr].
        -- rewrite Hpk in Hrpk. injection Hrpk as <-.
           rewrite Hu in Hu'. injection Hu' as <-. left. by left.
        -- right. by exists r, pk', u'.
  - destruct IH as [He (r & Hr & Hbad)]. split; [done|].
    exists r. split; [apply elem_of_cons; by right|done].
Qed.

Lemma list_run config P (w : world (ciphertext P)) :
  list_ config P w
  = (_scan_table_loop config (map_to_list (table w)).*2 ∅, w).
Proof. reflexivity. Qed.

(** [list] returns on a table whose rows all have a partition key that is
    a context key or a UUID. *)
Lemma list_good_rows_Ok config P (w : world (ciphertext P)) :
  (∀ key row, table w !! key = Some row →
     ∃ pkv, row !! partition_key_name config = Some pkv
            ∧ (is_context_key_fmt config pkv = true
               ∨ ∃ u, UUID_of_str pkv = Ok u)) →
  ∃ found, (list_ config P w).1 = Ok found.
Proof.
  intros Hgood. rewrite list_run. cbn [fst].
  pose proof (scan_loop_spec config (map_to_list (table w)).*2 ∅) as Hspec.
  destruct (_scan_table_loop config (map_to_list (table w)).*2 ∅)
    as [found|e]; [by eexists|].
  exfalso. destruct Hspec as [_ (row & Hrow & Hbad)].
  apply elem_of_rows in Hrow as [key Hkey].
  destruct (Hgood key row Hkey) as (pkv & Hpk & Hok).
  destruct Hbad as [Hnone|(pkv' & Hpk' & Hfmt & Hparse)]; [congruence|].
  rewrite Hpk in Hpk'. injection Hpk' as <-.
  destruct Hok as [Hok|[u Hu]]; [congruence|by destruct (Hparse u)].
Qed.

Lemma listed_world_rows key row :
  table listed_world !! key = Some row →
  (key = ("00000000-0000-0000-0000-000000000005", "S3DOC")
   ∧ row !! partition_key_name sample_config
     = Some "00000000-0000-0000-0000-000000000005")
  ∨ (key = ("S3EC-FLEET", "00000000-0000-0000-0000-000000000005")
     ∧ row !! partition_key_name sample_config = Some "S3EC-FLEET").
Proof.
  cbn [table listed_world]. intros Hrow.
  apply lookup_insert_Some in Hrow as [[<- <-]|[_ Hrow]].
  - left. split; reflexivity.
  - apply lookup_singleton_Some in Hrow as [<- <-].
    right. split; reflexivity.
Qed.

Lemma sample_uuid_5 :
  UUID_of_str "00000000-0000-0000-0000-000000000005" = Ok 5%Z
  ∧ str_of_UUID 5%Z = "00000000-0000-0000-0000-000000000005"
  ∧ is_context_key_fmt sample_config "00000000-0000-0000-0000-000000000005"
    = false
  ∧ is_context_key_fmt sample_config "S3EC-FLEET" = true.
Proof. repeat split; vm_compute; reflexivity. Qed.

Lemma listed_world_listable :
  ∃ found, (list_ sample_config envelope_provider listed_world).1 = Ok found.
Proof.
  apply list_good_rows_Ok. intros key row Hrow.
  destruct sample_uuid_5 as (Hu & _ & _ & Hfmt).
  destruct (listed_world_rows key row Hrow) as [[_ Hpk]|[_ Hpk]].
  - eexists. split; [exact Hpk|]. right. by eexists.
  - eexists. split; [exact Hpk|]. by left.
Qed.

Lemma garbage_world_listing :
  (list_ sample_config envelope_provider garbage_world).1 = Raise ValueError.
Proof.
  rewrite list_run. cbn [fst table garbage_world].
  rewrite map_to_list_singleton, fmap_cons, fmap_nil.
  cbn [snd _scan_table_loop].
  assert (Hpk : ({[ "reference" := "garbage"; "target" := "S3DOC" ]} : dict)
                !! partition_key_name sample_config = Some "garbage")
    by reflexivity.
  assert (Hfmt : is_context_key_fmt sample_config "garbage" = false)
    by reflexivity.
  assert (Hparse : UUID_of_str "garbage" = Raise ValueError)
    by (vm_compute; reflexivity).
  rewrite Hpk, Hfmt, PointerItem_init_bare, Hparse.
  by rewrite bind_Raise.
Qed.

(** X14. [list] does not change the stores.  When it returns, the set holds
    exactly one pointer for every row of the table whose partition key is
    not in the format of context keys: the pointer built from that key, with
    the default context; index rows give nothing. *)
Theorem list_result (config : Config) (P : provider)
    (w : world (ciphertext P)) :
  (list_ config P w).2 = w
  ∧ ∀ found, (list_ config P w).1 = Ok found →
      (∀ x, x ∈ found ↔
         ∃ key row pkv u,
           table w !! key = Some row
           ∧ row !! partition_key_name config = Some pkv
           ∧ is_context_key_fmt config pkv = false
           ∧ UUID_of_str pkv = Ok u
           ∧ x = {| partition_key := str_of_UUID u;
                    sort_key := sort_key_config config;
                    context := ∅ |})
      ∧ (∀ x, x ∈ found →
           context x = ∅
           ∧ sort_key x = sort_key_config config
           ∧ is_canonical_uuid (partition_key x) = true).
Proof.
  rewrite list_run. split; [reflexivity|].
  cbn [fst]. intros found Hfound.
  pose proof (scan_loop_spec config (map_to_list (table w)).*2 ∅) as Hspec.
  rewrite Hfound in Hspec. destruct Hspec as [_ Hmem].
  assert (Hchar : ∀ x, x ∈ found ↔
            ∃ key row pkv u,
              table w !! key = Some row
              ∧ row !! partition_key_name config = Some pkv
              ∧ is_context_key_fmt config pkv = false
              ∧ UUID_of_str pkv = Ok u
              ∧ x = {| partition_key := str_of_UUID u;
                       sort_key := sort_key_config config;
                       context := ∅ |}).
  { intros x. rewrite Hmem. split.
    - intros [Hx|(row & pkv & u & Hrow & Hrest)]; [by apply elem_of_empty in Hx|].
      apply elem_of_rows in Hrow as [key Hkey]. by exists key, row, pkv, u.
    - intros (key & row & pkv & u & Hkey & Hrest). right.
      exists row, pkv, u. split; [|done]. apply elem_of_rows. by exists key. }
  split; [exact Hchar|].
  intros x Hx. apply Hchar in Hx as (_ & _ & _ & u & _ & _ & _ & _ & ->).
  cbn [context sort_key partition_key].
  split; [done|]. split; [done|]. apply is_canonical_str_of_UUID.
Qed.

Lemma list_result_witness :
  ∃ found,
    (list_ sample_config envelope_provider listed_world).1 = Ok found
    ∧ (list_ sample_config envelope_provider listed_world).2 = listed_world
    ∧ {| partition_key := "00000000-0000-0000-0000-000000000005";
         sort_key := "S3DOC"; context := ∅ |} ∈ found
    ∧ (∀ x, x ∈ found →
         x = {| partition_key := "00000000-0000-0000-0000-000000000005";
                sort_key := "S3DOC"; context := ∅ |})
    ∧ (∀ x, x ∈ found →
         context x = ∅
         ∧ sort_key x = sort_key_config sample_config
         ∧ is_canonical_uuid (partition_key x) = true).
Proof.
  destruct listed_world_listable as [found Hfound].
  destruct (list_result sample_config envelope_provider listed_world)
    as [Hsame Hres].
  destruct (Hres found Hfound) as [Hchar Hinv].
  destruct sample_uuid_5 as (Hu & Hstr & Hfmt & Hidx).
  exists found. split; [exact Hfound|]. split; [exact Hsame|].
  split; [|split; [|exact Hinv]].
  - apply Hchar.
    exists ("00000000-0000-0000-0000-000000000005", "S3DOC"),
      {[ "reference" := "00000000-0000-0000-0000-000000000005";
         "target" := "S3DOC"; "fleet" := "x" ]},
      "00000000-0000-0000-0000-000000000005", 5%Z.
    split; [apply lookup_insert_eq|].
    split; [reflexivity|]. split; [exact Hfmt|]. split; [exact Hu|].
    by rewrite Hstr.
  - intros x Hx.
    apply Hchar in Hx as (key & row & pkv & u & Hrow & Hpk & Hf & Hparse & ->).
    destruct (listed_world_rows key row Hrow) as [[_ Hpk']|[_ Hpk']];
      rewrite Hpk in Hpk'; injection Hpk' as ->.
    + rewrite Hu in Hparse. injection Hparse as <-. by rewrite Hstr.
    + rewrite Hidx in Hf. discriminate.
Defined.

(** X15. [list] returns exactly when every row of the table has a partition
    key that is in the format of context keys or parses as a UUID: one row
    without a partition key, or with a partition key that is neither, makes
    the whole listing fail, with [KeyError] or [ValueError]. *)
Theorem list_succeeds_iff (config : Config) (P : provider)
    (w : world (ciphertext P)) :
  ((∃ found, (list_ config P w).1 = Ok found) ↔
   ∀ key row, table w !! key = Some row →
     ∃ pkv, row !! partition_key_name config = Some pkv
            ∧ (is_context_key_fmt config pkv = true
               ∨ ∃ u, UUID_of_str pkv = Ok u))
  ∧ (∀ e, (list_ config P w).1 = Raise e → e = KeyError ∨ e = ValueError).
Proof.
  rewrite list_run. cbn [fst].
  pose proof (scan_loop_spec config (map_to_list (table w)).*2 ∅) as Hspec.
  destruct (_scan_table_loop config (map_to_list (table w)).*2 ∅)
    as [found|e].
  - destruct Hspec as [Hgood _]. split; [|by intros e].
    split; [|by eexists].
    intros _ key row Hkey. apply Hgood. apply elem_of_rows. by exists key.
  - destruct Hspec as [He (row & Hrow & Hbad)].
    apply elem_of_rows in Hrow as [key Hkey].
    split; [|by intros e' [= <-]].
    split; [by intros [? ?]|].
    intros Hgood. exfalso.
    destruct (Hgood key row Hkey) as (pkv & Hpk & Hok).
    destruct Hbad as [Hnone|(pkv' & Hpk' & Hfmt & Hparse)].
    + congruence.
    + rewrite Hpk in Hpk'. injection Hpk' as <-.
      destruct Hok as [Hok|[u Hu]]; [congruence|by destruct (Hparse u)].
Qed.

Lemma list_succeeds_iff_witness :
  (∃ found, (list_ sample_config envelope_provider listed_world).1 = Ok found)
  ∧ (list_ sample_config envelope_provider garbage_world).1
    = Raise ValueError
  ∧ ¬ (∃ found,
         (list_ sample_config envelope_provider garbage_world).1 = Ok found)
  ∧ (ValueError = KeyError ∨ ValueError = ValueError).
Proof.
  destruct sample_uuid_5 as (Hu & _ & _ & Hfmt).
  split; [|split; [|split]].
  - apply (proj1 (list_succeeds_iff sample_config envelope_provider
                    listed_world)).
    intros key row Hrow.
    destruct (listed_world_rows key row Hrow) as [[_ Hpk]|[_ Hpk]].
    + eexists. split; [exact Hpk|]. right. by eexists.
    + eexists. split; [exact Hpk|]. by left.
  - exact garbage_world_listing.
  - intros Hok.
    pose proof (proj1 (proj1 (list_succeeds_iff sample_config
                                envelope_provider garbage_world)) Hok)
      as Hrows.
    destruct (Hrows ("garbage", "S3DOC")
                {[ "reference" := "garbage"; "target" := "S3DOC" ]})
      as (pkv & Hpk & Hgood).
    + cbn [table garbage_world]. apply lookup_singleton_eq.
    + assert (pkv = "garbage") as -> by (by injection Hpk as <-).
      destruct Hgood as [Hc|[u Hparse]]; [by vm_compute in Hc|].
      by vm_compute in Hparse.
  - exact (proj2 (list_succeeds_iff sample_config envelope_provider
                    garbage_world) ValueError garbage_world_listing).
Defined.

(** X16. On a table whose rows sit under their own partition key and that
    [list] can list, storing a document (context without reserved names,
    storage key not in the format of context keys) adds to the listing the
    pointer of the document with the default context, and nothing else: the
    index rows that [store] writes are left out. *)
Theorem list_after_store (config : Config) (P : provider) (uuid : UUID)
    (data : list Byte.byte) (ctx : dict) (c : ciphertext P)
    (w : world (ciphertext P)) (found : gset PointerItem) :
  config_wf config →
  (partition_key_name config ∉ dom ctx) →
  (sort_key_name config ∉ dom ctx) →
  encrypt P data ctx = Ok c →
  is_context_key_fmt config (str_of_UUID uuid) = false →
  (∀ a b row, table w !! (a, b) = Some row →
     row !! partition_key_name config = Some a) →
  (list_ config P w).1 = Ok found →
  ∃ p w',
    store config P uuid data ctx w = (Ok p, w')
    ∧ (list_ config P w').1
      = Ok (found ∪ {[ {| partition_key := get_s3_key p;
                          sort_key := sort_key_config config;
                          context := ∅ |} ]}).
Proof.
  intros Hwf H1 H2 Henc Hfmt Hkeyed Hlist.
  destruct (store_run config P uuid data ctx c w Hwf H1 H2 Henc Hfmt)
    as (w' & Hstore & _ & Hptr & Hidx & Hframe).
  set (p := {| partition_key := str_of_UUID uuid;
               sort_key := sort_key_config config; context := ctx |}) in *.
  exists p, w'. split; [exact Hstore|].
  unfold get_s3_key. cbn [partition_key p].
  set (bare := {| partition_key := str_of_UUID uuid;
                  sort_key := sort_key_config config; context := ∅ |}).
  (* the rows of the table before *)
  rewrite list_run in Hlist. cbn [fst] in Hlist.
  pose proof (scan_loop_spec config (map_to_list (table w)).*2 ∅) as Hold.
  rewrite Hlist in Hold. destruct Hold as [Hgood Hmem].
  (* the rows of the table after *)
  assert (Hrows : ∀ key row, table w' !! key = Some row →
            (row !! partition_key_name config = Some (str_of_UUID uuid))
            ∨ (∃ pkv, row !! partition_key_name config = Some pkv
                      ∧ is_context_key_fmt config pkv = true)
            ∨ (table w !! key = Some row
               ∧ key.1 ≠ str_of_UUID uuid
               ∧ is_context_key_fmt config key.1 = false)
            ∨ (table w !! key = Some row
               ∧ is_context_key_fmt config key.1 = true)).
  { intros key row Hrow.
    destruct (decide (key = (str_of_UUID uuid, sort_key_config config)))
      as [->|Hk1].
    { rewrite Hptr in Hrow. injection Hrow as <-. left.
      by apply (to_item_lookup_partition_key config p). }
    destruct (decide (key ∈ (set_map (λ k, (canonicalize config k,
                                            str_of_UUID uuid)) (dom ctx)
                              : gset (string * string)))) as [Hk2|Hk2].
    { apply elem_of_map in Hk2 as (k & -> & Hk).
      rewrite (Hidx k Hk) in Hrow. injection Hrow as <-. right; left.
      exists (canonicalize config k).
      split; [by apply to_key_lookup_partition_key|].
      apply canonicalize_is_context_key_fmt. }
    rewrite Hframe in Hrow; [|done|].
    2:{ intros k Hk ->. apply Hk2. apply elem_of_map. by exists k. }
    destruct (is_context_key_fmt config key.1) eqn:Hf.
    { right; right; right. done. }
    destruct (decide (key.1 = str_of_UUID uuid)) as [E|E].
    - left. destruct key as [a b]. simpl in E. subst a.
      by apply (Hkeyed _ b).
    - right; right; left. done. }
  rewrite list_run. cbn [fst].
  pose proof (scan_loop_spec config (map_to_list (table w')).*2 ∅) as Hnew.
  destruct (_scan_table_loop config (map_to_list (table w')).*2 ∅)
    as [found'|e].
  2:{ exfalso. destruct Hnew as [_ (row & Hrow & Hbad)].
      apply elem_of_rows in Hrow as [key Hkey].
      destruct (Hrows key row Hkey)
        as [Hpk|[(pkv & Hpk & Hf)|[(Hw & _)|(Hw & _)]]].
      - destruct Hbad as [Hnone|(pkv & Hpk' & _ & Hparse)]; [congruence|].
        rewrite Hpk in Hpk'. injection Hpk' as <-.
        by destruct (Hparse _ (UUID_of_str_str_of_UUID uuid)).
      - destruct Hbad as [Hnone|(pkv' & Hpk' & Hf' & _)]; congruence.
      - destruct (Hgood row) as (pkv & Hpk & Hok).
        { apply elem_of_rows. by exists key. }
        destruct Hbad as [Hnone|(pkv' & Hpk' & Hf' & Hparse)]; [congruence|].
        rewrite Hpk in Hpk'. injection Hpk' as <-.
        destruct Hok as [Hok|[u Hu]]; [congruence|by destruct (Hparse u)].
      - destruct (Hgood row) as (pkv & Hpk & Hok).
        { apply elem_of_rows. by exists key. }
        destruct Hbad as [Hnone|(pkv' & Hpk' & Hf' & Hparse)]; [congruence|].
        rewrite Hpk in Hpk'. injection Hpk' as <-.
        destruct Hok as [Hok|[u Hu]]; [congruence|by destruct (Hparse u)]. }
  destruct Hnew as [_ Hmem'].
  f_equal. apply set_eq. intros x.
  rewrite Hmem', elem_of_union, elem_of_singleton, Hmem. split.
  - intros [Hx|(row & pkv & u & Hrow & Hpk & Hf & Hu & ->)];
      [by apply elem_of_empty in Hx|].
    apply elem_of_rows in Hrow as [key Hkey].
    destruct (Hrows key row Hkey)
      as [Hpk'|[(pkv' & Hpk' & Hf')|[(Hw & _)|(Hw & _)]]].
    + right. rewrite Hpk in Hpk'. injection Hpk' as ->.
      rewrite UUID_of_str_str_of_UUID in Hu. injection Hu as <-.
      unfold bare. by rewrite str_of_UUID_mod.
    + congruence.
    + left. right. exists row, pkv, u.
      split; [apply elem_of_rows; by exists key|done].
    + left. right. exists row, pkv, u.
      split; [apply elem_of_rows; by exists key|done].
  - intros [[Hx|(row & pkv & u & Hrow & Hpk & Hf & Hu & ->)]| ->];
      [by apply elem_of_empty in Hx| |].
    + apply elem_of_rows in Hrow as [[a b] Hkey].
      pose proof (Hkeyed a b row Hkey) as Ha.
      rewrite Hpk in Ha. injection Ha as <-.
      destruct (decide (pkv = str_of_UUID uuid)) as [->|Hne].
      * (* the row of the same document, written again *)
        right. exists (to_item config p), (str_of_UUID uuid), u.
        split; [apply elem_of_rows; eexists; exact Hptr|].
        split; [by apply (to_item_lookup_partition_key config p)|done].
      * right. exists row, pkv, u. split; [|done].
        apply elem_of_rows. exists (pkv, b).
        rewrite Hframe; [done|by intros [= ? ?]|].
        intros k Hk [= E _].
        rewrite E, canonicalize_is_context_key_fmt in Hf. discriminate.
    + right. exists (to_item config p), (str_of_UUID uuid), (uuid mod 2 ^ 128)%Z.
      split; [apply elem_of_rows; eexists; exact Hptr|].
      split; [by apply (to_item_lookup_partition_key config p)|].
      split; [done|]. split; [apply UUID_of_str_str_of_UUID|].
      unfold bare. by rewrite str_of_UUID_mod.
Qed.

Lemma list_after_store_witness :
  ∃ p w',
    store sample_config envelope_provider 5%Z [] {[ "fleet" := "x" ]}
      (empty_world envelope_provider) = (Ok p, w')
    ∧ (list_ sample_config envelope_provider w').1
      = Ok (∅ ∪ {[ {| partition_key := get_s3_key p;
                      sort_key := sort_key_config sample_config;
                      context := ∅ |} ]}).
Proof.
  destruct (no_reserved_fleet "x") as [H1 H2].
  apply (list_after_store sample_config envelope_provider 5%Z []
           {[ "fleet" := "x" ]} ([], {[ "fleet" := "x" ]})
           (empty_world envelope_provider) ∅ sample_config_wf H1 H2
           eq_refl eq_refl).
  - intros a b row Hrow. cbn [table empty_world] in Hrow.
    by rewrite lookup_empty in Hrow.
  - reflexivity.
Defined.
